(** * The x/feemarket keeper: state access over a key-value store, with
      pooled fast paths.

    A shallow embedding of [x/feemarket/keeper/keeper.go] and of the message
    pool of the [types] package, followed by the properties of the keeper
    that its specification states. *)

From Stdlib Require Import ZArith Ascii String Lia.
From stdpp Require Import base option list gmap strings.

Local Open Scope string_scope.
Local Open Scope list_scope.
Local Open Scope Z_scope.

(** ** Go values *)

(** A Go [[]byte] that is not nil, and a Go [string], are both sequences of
    octets; the conversions [string(bz)] and [[]byte(s)] keep the contents.
    A byte slice that may be nil is an [option bytes]. *)
Abbreviation bytes := string (only parsing).

(** [int64(x)]: the two's complement reading of the low 64 bits. *)
Definition int64 (x : Z) : Z := (x + 2^63) mod 2^64 - 2^63.

(** [uint64(x)]. *)
Definition uint64 (x : Z) : Z := x mod 2^64.

Definition is_int64 (x : Z) : Prop := - 2^63 <= x < 2^63.

(** ** [strconv]: the two library calls of the enabled-height accessors,
    at base 10 and bit size 64. *)
Module strconv.

Inductive ErrKind : Set := ErrSyntax | ErrRange.

(** [*strconv.NumError]. *)
Record NumError : Set := mkNumError { Func : string; Num : string; Err : ErrKind }.

Definition syntaxError (fn str : string) : NumError := mkNumError fn str ErrSyntax.
Definition rangeError (fn str : string) : NumError := mkNumError fn str ErrRange.

Definition fnParseUint : string := "ParseUint".
Definition fnParseInt : string := "ParseInt".

Definition maxUint64 : Z := 2^64 - 1.

Definition byte (c : ascii) : Z := Z.of_N (N_of_ascii c).

(** [lower(c) = c | ('x' - 'X')]. *)
Definition lower (c : Z) : Z := Z.lor c 32.

(** The [switch] of [ParseUint] that reads one character as a digit value;
    [None] is its [default] branch. With base 10 the underscore case is
    off, so ['_'] falls through to the other cases. *)
Definition digitval (c : Z) : option Z :=
  if (48 <=? c) && (c <=? 57) then Some (c - 48)
  else if (97 <=? lower c) && (lower c <=? 122) then Some (lower c - 97 + 10)
  else None.

(** [cutoff = maxUint64/10 + 1], the least number whose tenfold overflows. *)
Definition cutoffU : Z := maxUint64 / 10 + 1.

(** [maxVal = 1<<64 - 1]. *)
Definition maxVal : Z := 2^64 - 1.

(** The loop of [ParseUint] over the bytes of [s], with the accumulator
    [n]; [s0] is the whole input, kept for the error value. *)
Fixpoint ParseUint_loop (s0 s : string) (n : Z) : Z * option NumError :=
  match s with
  | EmptyString => (n, None)
  | String c s' =>
      match digitval (byte c) with
      | None => (0, Some (syntaxError fnParseUint s0))
      | Some d =>
          if d >=? 10 then (0, Some (syntaxError fnParseUint s0))
          else if n >=? cutoffU then (maxVal, Some (rangeError fnParseUint s0))
          else
            let n10 := n * 10 in
            let n1 := uint64 (n10 + d) in
            if (n1 <? n10) || (n1 >? maxVal)
            then (maxVal, Some (rangeError fnParseUint s0))
            else ParseUint_loop s0 s' n1
      end
  end.

(** [strconv.ParseUint(s, 10, 64)]. *)
Definition ParseUint (s : string) : Z * option NumError :=
  match s with
  | EmptyString => (0, Some (syntaxError fnParseUint s))
  | _ => ParseUint_loop s s 0
  end.

(** [cutoff = 1 << 63] of [ParseInt]. *)
Definition cutoffI : Z := 2^63.

(** [strconv.ParseInt(s, 10, 64)]. *)
Definition ParseInt (s : string) : Z * option NumError :=
  match s with
  | EmptyString => (0, Some (syntaxError fnParseInt s))
  | String c0 rest =>
      let s0 := s in
      let '(neg, s1) :=
        if byte c0 =? 43 then (false, rest)
        else if byte c0 =? 45 then (true, rest)
        else (false, s) in
      let '(un, err) := ParseUint s1 in
      match err with
      | Some (mkNumError _ _ ErrSyntax) => (0, Some (syntaxError fnParseInt s0))
      | _ =>
          if negb neg && (un >=? cutoffI)
          then (cutoffI - 1, Some (rangeError fnParseInt s0))
          else if neg && (un >? cutoffI)
          then (- cutoffI, Some (rangeError fnParseInt s0))
          else
            let n := int64 un in
            (if neg then int64 (- n) else n, None)
      end
  end.

(** The character of a decimal digit: an entry of [digits], and a half of
    an entry of [smallsString]. *)
Definition digit (d : Z) : ascii := ascii_of_N (Z.to_N (48 + d)).

(** [small(i)] for [0 <= i < 100]. *)
Definition small (i : Z) : string :=
  if i <? 10 then String (digit i) ""
  else String (digit (i / 10)) (String (digit (i mod 10)) "").

(** The base-10 loop of [formatBits], two digits per round: [us] is what
    is left to print and [a] the part of the buffer already filled. Ten
    rounds exhaust any 64-bit value. *)
Fixpoint formatBits_loop (rounds : nat) (us : Z) (a : string) : Z * string :=
  match rounds with
  | O => (us, a)
  | S rounds' =>
      if us >=? 100 then
        let two := us mod 100 in
        formatBits_loop rounds' (us / 100)
          (String (digit (two / 10)) (String (digit (two mod 10)) a))
      else (us, a)
  end.

(** [formatBits(nil, u, 10, neg, false)]. *)
Definition formatBits (u : Z) (neg : bool) : string :=
  let u := if neg then uint64 (- u) else u in
  let '(us, a) := formatBits_loop 10 u "" in
  let a := String (digit (us mod 10)) a in
  let a := if us >=? 10 then String (digit (us / 10)) a else a in
  if neg then String "-" a else a.

(** [strconv.FormatInt(i, 10)]. *)
Definition FormatInt (i : Z) : string :=
  if (0 <=? i) && (i <? 100) then small i
  else formatBits (uint64 i) (i <? 0).

End strconv.

(** ** Decimal integers, as the specification reads them

    The specification's side of the enabled-height format: a decimal
    integer is an optional sign followed by at least one decimal digit, and
    a height is one that fits 64 bits. *)

(** The place of a character in a string, counted from [i]. *)
Fixpoint index_from (c : ascii) (s : string) (i : Z) : option Z :=
  match s with
  | EmptyString => None
  | String x s' => if Ascii.eqb c x then Some i else index_from c s' (i + 1)
  end.

(** The value of a decimal digit. *)
Definition digit_of (c : ascii) : option Z := index_from c "0123456789" 0.

(** The number a string of digits denotes after the digits [acc]. *)
Fixpoint digits_value (s : string) (acc : Z) : option Z :=
  match s with
  | EmptyString => Some acc
  | String c s' => d ← digit_of c; digits_value s' (acc * 10 + d)
  end.

(** Digits only, and at least one. *)
Definition unsigned_decimal (s : string) : option Z :=
  match s with
  | EmptyString => None
  | _ => digits_value s 0
  end.

Definition decimal_integer (s : string) : option Z :=
  match s with
  | String "+" r => unsigned_decimal r
  | String "-" r => Z.opp <$> unsigned_decimal r
  | _ => unsigned_decimal s
  end.

Definition decimal_int64 (s : string) : option Z :=
  v ← decimal_integer s;
  if (- 2^63 <=? v) && (v <? 2^63) then Some v else None.

(** [s] is a string of digits that denotes [u], leading zeros allowed. *)
Definition denotes (s : string) (u : Z) : Prop :=
  0 <= u /\
  forall n, digits_value s n = Some (n * 10 ^ Z.of_nat (String.length s) + u).

(** ** The types the keeper stores and passes around *)

(** [sdkmath.LegacyDec]: a pointer to a big integer that holds the decimal
    scaled by [10^18]; the zero value of the struct has a nil pointer. *)
Record LegacyDec : Set := mkLegacyDec { dec_int : option Z }.

Definition LegacyDec_zero_value : LegacyDec := mkLegacyDec None.
Definition LegacyZeroDec : LegacyDec := mkLegacyDec (Some 0).
Definition LegacyOneDec : LegacyDec := mkLegacyDec (Some (10 ^ 18)).

(** [sdk.DecCoin]. *)
Record DecCoin : Set := mkDecCoin { Denom : string; Amount : LegacyDec }.

(** [sdk.DecCoin{}]. *)
Definition DecCoin_zero_value : DecCoin := mkDecCoin "" LegacyDec_zero_value.

(** [types.Params], with the fields the keeper names. *)
Record Params : Set := mkParams {
  Alpha : LegacyDec;
  Beta : LegacyDec;
  Gamma : LegacyDec;
  Delta : LegacyDec;
  MinBaseGasPrice : LegacyDec;
  MinLearningRate : LegacyDec;
  MaxLearningRate : LegacyDec
}.

(** [types.State], with the fields the keeper names. [Window] is a
    [[]uint64]; a nil slice and an empty one are both [[]]. *)
Record State : Set := mkState {
  BaseGasPrice : LegacyDec;
  LearningRate : LegacyDec;
  Window : list Z
}.

(** [types.Params{}] and [types.State{}]. *)
Definition Params_zero_value : Params :=
  mkParams LegacyDec_zero_value LegacyDec_zero_value LegacyDec_zero_value
           LegacyDec_zero_value LegacyDec_zero_value LegacyDec_zero_value
           LegacyDec_zero_value.

Definition State_zero_value : State :=
  mkState LegacyDec_zero_value LegacyDec_zero_value [].

(** Go [error] values that reach the keeper's callers. *)
Inductive error : Set :=
| ErrResolverNotSet
| ErrNum (e : strconv.NumError)
| ErrOther (msg : string).

(** The two returns of a Go function: it returns, or it panics. *)
Inductive Outcome (A : Type) : Type :=
| Returned (a : A)
| Panicked (msg : string).
Arguments Returned {A} a.
Arguments Panicked {A} msg.

(** One field read off the wire by the generated decoder. *)
Inductive StateField : Set :=
| State_BaseGasPrice (d : LegacyDec)
| State_LearningRate (d : LegacyDec)
| State_Window (vs : list Z).

Inductive ParamsField : Set :=
| Params_Alpha (d : LegacyDec)
| Params_Beta (d : LegacyDec)
| Params_Gamma (d : LegacyDec)
| Params_Delta (d : LegacyDec)
| Params_MinBaseGasPrice (d : LegacyDec)
| Params_MinLearningRate (d : LegacyDec)
| Params_MaxLearningRate (d : LegacyDec).

(** What the keeper calls and the sources do not contain: the SDK's address
    check, the store keys and the wire format of the [types] package. The
    keeper is verified for every choice of them.
    - [AccAddressFromBech32] returns the address or an error;
    - [Marshal] returns the encoding or an error;
    - a scan reads a byte slice (nil when [None]) as the sequence of fields
      it holds, up to the first malformed one, and the error met there. *)
Class Externals : Type := {
  BinaryCodec : Type;
  AccountKeeper : Type;
  AccAddressFromBech32 : string -> bytes + error;
  KeyEnabledHeight : bytes;
  KeyParams : bytes;
  KeyState : bytes;
  State_Marshal : State -> bytes + error;
  State_scan : option bytes -> list StateField * option error;
  Params_Marshal : Params -> bytes + error;
  Params_scan : option bytes -> list ParamsField * option error
}.

(** *** Decoding in place *)

(** Modelled from the spec: the step of the generated [State.Unmarshal] for
    one field (the generated code is not among the sources). A decimal
    replaces the receiver's; window entries are appended to the receiver's
    window. *)
Definition State_set (m : State) (f : StateField) : State :=
  match f with
  | State_BaseGasPrice d => mkState d (LearningRate m) (Window m)
  | State_LearningRate d => mkState (BaseGasPrice m) d (Window m)
  | State_Window vs => mkState (BaseGasPrice m) (LearningRate m) (Window m ++ vs)
  end.

(** Modelled from the spec: the step of the generated [Params.Unmarshal] for
    one field (the generated code is not among the sources): the decimal
    replaces the receiver's. *)
Definition Params_set (m : Params) (f : ParamsField) : Params :=
  match f with
  | Params_Alpha d =>
      mkParams d (Beta m) (Gamma m) (Delta m)
               (MinBaseGasPrice m) (MinLearningRate m) (MaxLearningRate m)
  | Params_Beta d =>
      mkParams (Alpha m) d (Gamma m) (Delta m)
               (MinBaseGasPrice m) (MinLearningRate m) (MaxLearningRate m)
  | Params_Gamma d =>
      mkParams (Alpha m) (Beta m) d (Delta m)
               (MinBaseGasPrice m) (MinLearningRate m) (MaxLearningRate m)
  | Params_Delta d =>
      mkParams (Alpha m) (Beta m) (Gamma m) d
               (MinBaseGasPrice m) (MinLearningRate m) (MaxLearningRate m)
  | Params_MinBaseGasPrice d =>
      mkParams (Alpha m) (Beta m) (Gamma m) (Delta m)
               d (MinLearningRate m) (MaxLearningRate m)
  | Params_MinLearningRate d =>
      mkParams (Alpha m) (Beta m) (Gamma m) (Delta m)
               (MinBaseGasPrice m) d (MaxLearningRate m)
  | Params_MaxLearningRate d =>
      mkParams (Alpha m) (Beta m) (Gamma m) (Delta m)
               (MinBaseGasPrice m) (MinLearningRate m) d
  end.

(** The window entries a field carries. *)
Definition window_of (f : StateField) : option (list Z) :=
  match f with State_Window vs => Some vs | _ => None end.

Section Codec.
Context {E : Externals}.

(** Modelled from the spec: the generated [State.Unmarshal] of the [types]
    package is not among the sources. It decodes into the receiver without
    clearing it first: a decimal field found in the bytes replaces the
    receiver's, the window entries found are appended to the receiver's
    window (which is why a recycled receiver has its window reset by the
    caller), and what was decoded before a malformed field stays in the
    receiver when the error is returned. The result is the receiver after
    the call and the error. *)
Definition State_Unmarshal (m : State) (bz : option bytes) : State * option error :=
  let '(fs, err) := State_scan bz in (fold_left State_set fs m, err).

(** Modelled from the spec: the generated [Params.Unmarshal] of the [types]
    package is not among the sources. It decodes into the receiver without
    clearing it first; every field of [Params] is a decimal, replaced when
    found in the bytes. *)
Definition Params_Unmarshal (m : Params) (bz : option bytes) : Params * option error :=
  let '(fs, err) := Params_scan bz in (fold_left Params_set fs m, err).



(** The window entries a byte slice holds, in wire order. *)
Definition decoded_Window (bz : option bytes) : list Z :=
  concat (omap window_of (State_scan bz).1).

End Codec.

(** ** The message pool of the [types] package *)

(** A pointer to a pooled instance: its index among the instances the
    pool's factory has made. *)
Abbreviation ptr := nat (only parsing).

(** The address of a [MessagePool]. *)
Abbreviation PoolRef := positive (only parsing).

(** [MessagePool[T]] with its [sync.Pool]. [factory] is what the factory
    returns at each call, [objs] the instances made so far (the memory the
    pointers point into), [free] the pointers the [sync.Pool] holds (a value
    put there may be a nil pointer of type [T]: [None]); [self] is the
    address of the pool, which [Get] writes into the handles. *)
Record MessagePool (T : Type) : Type := mkMessagePool {
  self : PoolRef;
  factory : T;
  objs : list T;
  free : list (option ptr)
}.
Arguments mkMessagePool {T} self factory objs free.
Arguments self {T} m.
Arguments factory {T} m.
Arguments objs {T} m.
Arguments free {T} m.

(** [PooledMessage[T]]: [Value] is the pointer to the instance, [pool] the
    pointer to the pool it came from. *)
Record PooledMessage : Set := mkPooledMessage {
  Value : option ptr;
  pool : option PoolRef
}.

(** [types.PooledMessage[T]{}]. *)
Definition PooledMessage_zero_value : PooledMessage := mkPooledMessage None None.

(** What happens to a pool: the calls made on it, and the runtime taking an
    item out of the [sync.Pool], which it may do at any time. *)
Inductive PoolOp : Set :=
| OpGet (choice : option nat)
| OpRelease (i : nat)
| OpDrop (i : nat).

Section Pool.
Context {T : Type}.

(** [NewMessagePool(factory)], allocated at [addr]. *)
Definition NewMessagePool (addr : PoolRef) (fac : T) : MessagePool T :=
  mkMessagePool addr fac [] [].

(** [sync.Pool.Get] with [New] set: it takes an arbitrary item out of the
    pool, or treats the pool as empty and calls [New]. [choice] is the
    runtime's decision: [Some i] takes the item at position [i] when there
    is one; anything else calls the factory, whose result is a new
    instance. *)
Definition sync_Pool_Get (choice : option nat) (p : MessagePool T)
  : option ptr * MessagePool T :=
  match choice ≫= (fun i => (fun o => (i, o)) <$> free p !! i) with
  | Some (i, o) => (o, mkMessagePool (self p) (factory p) (objs p) (delete i (free p)))
  | None =>
      (Some (length (objs p)),
       mkMessagePool (self p) (factory p) (objs p ++ [factory p]) (free p))
  end.

(** [MessagePool[T].Get]. *)
Definition MessagePool_Get (choice : option nat) (p : MessagePool T)
  : PooledMessage * MessagePool T :=
  let '(obj, p') := sync_Pool_Get choice p in
  (mkPooledMessage obj (Some (self p)), p').

(** [MessagePool[T].put]: [sync.Pool.Put] of a pointer boxed in an
    interface, which is stored even when the pointer is nil. *)
Definition MessagePool_put (obj : option ptr) (p : MessagePool T) : MessagePool T :=
  mkMessagePool (self p) (factory p) (objs p) (obj :: free p).

(** [PooledMessage[T].Release] on the pool the handle points to, whose
    state is [p]; [None] when the handle has no pool (a nil
    dereference). *)
Definition Release (h : PooledMessage) (p : MessagePool T) : option (MessagePool T) :=
  match pool h with
  | None => None
  | Some _ => Some (MessagePool_put (Value h) p)
  end.

(** Writing through a pointer into the pool's instances. *)
Definition store_obj (a : ptr) (v : T) (p : MessagePool T) : MessagePool T :=
  mkMessagePool (self p) (factory p) (<[a := v]> (objs p)) (free p).

(** Every pointer the pool holds is a non-nil pointer to an instance the
    factory made. *)
Definition pool_wf (p : MessagePool T) : Prop :=
  Forall (fun o => exists a : ptr, o = Some a /\ (a < length (objs p))%nat) (free p).

(** The instances that are out with callers. *)
Definition checked_out (p : MessagePool T) : nat :=
  (length (objs p) - length (free p))%nat.

(** One step of the pool and the handles that are out ([live]): a [Get] by
    some caller, whose handle joins them; the [Release] of the handle at
    position [i] among them, which its caller then forgets (a release of a
    handle that is not out does not happen); or the runtime dropping the
    item at position [i] of the pool. *)
Definition pool_op (st : MessagePool T * list PooledMessage) (op : PoolOp)
  : MessagePool T * list PooledMessage :=
  match op with
  | OpGet choice =>
      let '(h, p') := MessagePool_Get choice st.1 in (p', h :: st.2)
  | OpRelease i =>
      match st.2 !! i with
      | Some h =>
          match Release h st.1 with
          | Some p' => (p', delete i st.2)
          | None => st
          end
      | None => st
      end
  | OpDrop i =>
      match free st.1 !! i with
      | Some _ =>
          (mkMessagePool (self st.1) (factory st.1) (objs st.1) (delete i (free st.1)),
           st.2)
      | None => st
      end
  end.

(** A sequence of steps, in the order they take effect. *)
Definition pool_run (st : MessagePool T * list PooledMessage) (ops : list PoolOp)
  : MessagePool T * list PooledMessage :=
  fold_left pool_op ops st.

(** What holds between a pool and the handles that are out: the pointers in
    the pool and in the handles are all different, each points to an
    instance the factory made, and every handle knows its pool. *)
Definition pool_inv (st : MessagePool T * list PooledMessage) : Prop :=
  NoDup (free st.1 ++ (Value <$> st.2))
  /\ Forall (fun o => exists a : ptr, o = Some a /\ (a < length (objs st.1))%nat)
            (free st.1 ++ (Value <$> st.2))
  /\ (length (free st.1) + length st.2 <= length (objs st.1))%nat
  /\ Forall (fun h => is_Some (pool h)) st.2.

End Pool.

(** ** The execution context *)

(** [sdk.Context], as far as the keeper uses it: [ctx.KVStore(key)] for
    every store key (a store maps keys to non-nil values; [Get] of an absent
    key is nil), whether the store handles it gives out implement
    [pooledKVStore], and how many of them were released. *)
Record Context : Type := mkContext {
  KVStore : string -> gmap string string;
  pooledKVStore : bool;
  storeReleases : nat
}.

(** [ctx.KVStore(sk).Set(key, bz)]. *)
Definition KVStore_Set (ctx : Context) (sk : string) (key bz : bytes) : Context :=
  mkContext
    (fun sk' => if decide (sk' = sk) then <[key := bz]> (KVStore ctx sk) else KVStore ctx sk')
    (pooledKVStore ctx) (storeReleases ctx).

(** [if store, ok := store.(pooledKVStore); ok { defer store.Release() }],
    at the return of the function. *)
Definition deferred_Release (ctx : Context) : Context :=
  if pooledKVStore ctx
  then mkContext (KVStore ctx) (pooledKVStore ctx) (S (storeReleases ctx))
  else ctx.

(** [types.DenomResolver]: the method [ConvertToDenom(ctx, coin, denom)]. *)
Definition DenomResolver : Type :=
  Context -> DecCoin -> string -> DecCoin * option error.

(** ** The keeper *)
Section Keeper.
Context {E : Externals}.

(** [Keeper]. A nil [resolver] is [None]. The two pools are held by
    pointer; their state is kept here with the keeper. *)
Record Keeper : Type := mkKeeper {
  cdc : BinaryCodec;
  storeKey : string;
  ak : AccountKeeper;
  resolver : option DenomResolver;
  paramsPool : MessagePool Params;
  statePool : MessagePool State;
  authority : string
}.

Definition with_resolver (k : Keeper) (r : option DenomResolver) : Keeper :=
  mkKeeper (cdc k) (storeKey k) (ak k) r (paramsPool k) (statePool k) (authority k).

Definition with_paramsPool (k : Keeper) (p : MessagePool Params) : Keeper :=
  mkKeeper (cdc k) (storeKey k) (ak k) (resolver k) p (statePool k) (authority k).

Definition with_statePool (k : Keeper) (p : MessagePool State) : Keeper :=
  mkKeeper (cdc k) (storeKey k) (ak k) (resolver k) (paramsPool k) p (authority k).

(** The factories [NewKeeper] gives to its pools. *)
Definition Params_factory : Params :=
  mkParams LegacyOneDec LegacyOneDec LegacyOneDec LegacyOneDec
           LegacyOneDec LegacyOneDec LegacyOneDec.

Definition State_factory : State :=
  mkState LegacyZeroDec LegacyZeroDec [].

(** [NewKeeper]. The pools are new objects; they get the addresses 1 and
    2. *)
Definition NewKeeper (cdc : BinaryCodec) (storeKey : string)
           (authKeeper : AccountKeeper) (resolver : option DenomResolver)
           (authority : string) : Outcome Keeper :=
  match AccAddressFromBech32 authority with
  | inr _ => Panicked ("invalid authority address: " +:+ authority)
  | inl _ =>
      Returned (mkKeeper cdc storeKey authKeeper resolver
                         (NewMessagePool 1%positive Params_factory)
                         (NewMessagePool 2%positive State_factory)
                         authority)
  end.

(** [GetAuthority]. *)
Definition GetAuthority (k : Keeper) : string := authority k.

(** [GetEnabledHeight]. *)
Definition GetEnabledHeight (k : Keeper) (ctx : Context) : Z * option error :=
  let store := KVStore ctx (storeKey k) in
  let key := KeyEnabledHeight in
  match store !! key with
  | None => (-1, None)
  | Some bz =>
      let '(h, err) := strconv.ParseInt bz in (h, ErrNum <$> err)
  end.

(** [SetEnabledHeight]; [height] is an [int64]. *)
Definition SetEnabledHeight (k : Keeper) (ctx : Context) (height : Z) : Context :=
  let bz := strconv.FormatInt height in
  KVStore_Set ctx (storeKey k) KeyEnabledHeight bz.

(** [ResolveToDenom]. *)
Definition ResolveToDenom (k : Keeper) (ctx : Context) (coin : DecCoin) (denom : string)
  : DecCoin * option error :=
  match resolver k with
  | None => (DecCoin_zero_value, Some ErrResolverNotSet)
  | Some r => r ctx coin denom
  end.

(** [SetDenomResolver]. *)
Definition SetDenomResolver (k : Keeper) (r : option DenomResolver) : Keeper :=
  with_resolver k r.

(** [GetState]. *)
Definition GetState (k : Keeper) (ctx : Context) : State * option error :=
  let store := KVStore ctx (storeKey k) in
  let key := KeyState in
  let bz := store !! key in
  let '(state, err) := State_Unmarshal State_zero_value bz in
  match err with
  | Some e => (State_zero_value, Some e)
  | None => (state, None)
  end.

(** [GetStateFast]. The result is [None] when the code would dereference
    a nil pointer; otherwise the handle and the error returned, and the
    keeper and the context after the call. *)
Definition GetStateFast (choice : option nat) (k : Keeper) (ctx : Context)
  : option (PooledMessage * option error * Keeper * Context) :=
  let store := KVStore ctx (storeKey k) in
  let key := KeyState in
  let bz := store !! key in
  let '(state, pool1) := MessagePool_Get choice (statePool k) in
  a ← Value state;
  v ← objs pool1 !! a;
  (* clear out the window *)
  let v0 := mkState (BaseGasPrice v) (LearningRate v) (take 0 (Window v)) in
  let '(v1, err) := State_Unmarshal v0 bz in
  let pool2 := store_obj a v1 pool1 in
  match err with
  | Some e =>
      pool3 ← Release state pool2;
      Some (PooledMessage_zero_value, Some e, with_statePool k pool3, deferred_Release ctx)
  | None =>
      Some (state, None, with_statePool k pool2, deferred_Release ctx)
  end.

(** [SetState]. *)
Definition SetState (k : Keeper) (ctx : Context) (state : State) : Context * option error :=
  match State_Marshal state with
  | inr err => (ctx, Some err)
  | inl bz => (KVStore_Set ctx (storeKey k) KeyState bz, None)
  end.

(** [GetParams]. *)
Definition GetParams (k : Keeper) (ctx : Context) : Params * option error :=
  let store := KVStore ctx (storeKey k) in
  let key := KeyParams in
  let bz := store !! key in
  let '(params, err) := Params_Unmarshal Params_zero_value bz in
  match err with
  | Some e => (Params_zero_value, Some e)
  | None => (params, None)
  end.

(** [GetParamsFast]; the result reads as that of [GetStateFast]. *)
Definition GetParamsFast (choice : option nat) (k : Keeper) (ctx : Context)
  : option (PooledMessage * option error * Keeper * Context) :=
  let store := KVStore ctx (storeKey k) in
  let key := KeyParams in
  let bz := store !! key in
  let '(params, pool1) := MessagePool_Get choice (paramsPool k) in
  a ← Value params;
  v ← objs pool1 !! a;
  let '(v1, err) := Params_Unmarshal v bz in
  let pool2 := store_obj a v1 pool1 in
  match err with
  | Some e =>
      pool3 ← Release params pool2;
      Some (PooledMessage_zero_value, Some e, with_paramsPool k pool3, deferred_Release ctx)
  | None =>
      Some (params, None, with_paramsPool k pool2, deferred_Release ctx)
  end.

(** [SetParams]. *)
Definition SetParams (k : Keeper) (ctx : Context) (params : Params) : Context * option error :=
  match Params_Marshal params with
  | inr err => (ctx, Some err)
  | inl bz => (KVStore_Set ctx (storeKey k) KeyParams bz, None)
  end.

End Keeper.

(** ** The keeper in use

    What the callers of a keeper do with it, one step at a time: pooled
    reads, the release of a handle they hold, writes through a handle they
    hold (the instance is theirs until they release it), and the setters. *)
Inductive KeeperOp : Type :=
| DoGetStateFast (choice : option nat)
| DoGetParamsFast (choice : option nat)
| DoReleaseState (i : nat)
| DoReleaseParams (i : nat)
| DoWriteState (i : nat) (v : State)
| DoWriteParams (i : nat) (v : Params)
| DoSetState (v : State)
| DoSetParams (v : Params)
| DoSetEnabledHeight (height : Z)
| DoSetDenomResolver (r : option DenomResolver).

Section KeeperRun.
Context {E : Externals}.

(** A keeper, the context it runs in, and the handles its callers hold:
    those a pooled read returned without an error and that were not
    released since. *)
Record World : Type := mkWorld {
  keeper : Keeper;
  context : Context;
  stateHandles : list PooledMessage;
  paramsHandles : list PooledMessage
}.

(** One step. [None] is a nil dereference. A pooled read that fails returns
    the zero handle, which nobody holds; [DoReleaseState i] and
    [DoWriteState i v] are the release of, and the assignment [*h.Value = v]
    through, the handle at position [i] among the state handles held (no
    step when there is none), and likewise for the params. *)
Definition keeper_op (w : World) (op : KeeperOp) : option World :=
  match op with
  | DoGetStateFast choice =>
      match GetStateFast choice (keeper w) (context w) with
      | Some (h, None, k', ctx') => Some (mkWorld k' ctx' (h :: stateHandles w) (paramsHandles w))
      | Some (_, Some _, k', ctx') => Some (mkWorld k' ctx' (stateHandles w) (paramsHandles w))
      | None => None
      end
  | DoGetParamsFast choice =>
      match GetParamsFast choice (keeper w) (context w) with
      | Some (h, None, k', ctx') => Some (mkWorld k' ctx' (stateHandles w) (h :: paramsHandles w))
      | Some (_, Some _, k', ctx') => Some (mkWorld k' ctx' (stateHandles w) (paramsHandles w))
      | None => None
      end
  | DoReleaseState i =>
      match stateHandles w !! i with
      | Some h =>
          p' ← Release h (statePool (keeper w));
          Some (mkWorld (with_statePool (keeper w) p') (context w)
                        (delete i (stateHandles w)) (paramsHandles w))
      | None => Some w
      end
  | DoReleaseParams i =>
      match paramsHandles w !! i with
      | Some h =>
          p' ← Release h (paramsPool (keeper w));
          Some (mkWorld (with_paramsPool (keeper w) p') (context w)
                        (stateHandles w) (delete i (paramsHandles w)))
      | None => Some w
      end
  | DoWriteState i v =>
      match stateHandles w !! i with
      | Some h =>
          a ← Value h;
          Some (mkWorld (with_statePool (keeper w) (store_obj a v (statePool (keeper w))))
                        (context w) (stateHandles w) (paramsHandles w))
      | None => Some w
      end
  | DoWriteParams i v =>
      match paramsHandles w !! i with
      | Some h =>
          a ← Value h;
          Some (mkWorld (with_paramsPool (keeper w) (store_obj a v (paramsPool (keeper w))))
                        (context w) (stateHandles w) (paramsHandles w))
      | None => Some w
      end
  | DoSetState v =>
      Some (mkWorld (keeper w) (SetState (keeper w) (context w) v).1
                    (stateHandles w) (paramsHandles w))
  | DoSetParams v =>
      Some (mkWorld (keeper w) (SetParams (keeper w) (context w) v).1
                    (stateHandles w) (paramsHandles w))
  | DoSetEnabledHeight height =>
      Some (mkWorld (keeper w) (SetEnabledHeight (keeper w) (context w) height)
                    (stateHandles w) (paramsHandles w))
  | DoSetDenomResolver r =>
      Some (mkWorld (SetDenomResolver (keeper w) r) (context w)
                    (stateHandles w) (paramsHandles w))
  end.

(** A sequence of steps, in the order they take effect. *)
Fixpoint keeper_run (w : World) (ops : list KeeperOp) : option World :=
  match ops with
  | [] => Some w
  | op :: ops' => w' ← keeper_op w op; keeper_run w' ops'
  end.

(** What holds of a keeper in use: each pool and the handles held on it
    are as [pool_inv] says, and the authority is [auth]. *)
Definition keeper_inv (auth : string) (w : World) : Prop :=
  pool_inv (statePool (keeper w), stateHandles w)
  /\ pool_inv (paramsPool (keeper w), paramsHandles w)
  /\ authority (keeper w) = auth.

(** Whether a field of a kind is among the fields read. *)
Definition has_BaseGasPrice (fs : list StateField) : Prop :=
  exists d, State_BaseGasPrice d ∈ fs.

Definition has_LearningRate (fs : list StateField) : Prop :=
  exists d, State_LearningRate d ∈ fs.

(** The decimal a field sets, for each decimal of a record. *)
Definition sets_BaseGasPrice (f : StateField) : option LegacyDec :=
  match f with State_BaseGasPrice d => Some d | _ => None end.

Definition sets_LearningRate (f : StateField) : option LegacyDec :=
  match f with State_LearningRate d => Some d | _ => None end.


End KeeperRun.

(** ** An instance to run the keeper on

    A small wire format, an address check and store keys, so that the
    keeper can be evaluated on concrete inputs. A record is a sequence of
    fields; a field is a tag character, a decimal integer and [";"]. A
    decimal is written as its scaled integer and must fit 64 bits; a window
    entry is a field of its own. *)
Module Demo.

(** Cut [s] at every [";"]: the complete fields and what follows the
    last [";"]. [cur] is the field being read. *)
Fixpoint fields_of (s cur : string) : list string * string :=
  match s with
  | EmptyString => ([], cur)
  | String c s' =>
      if decide (c = ";"%char)
      then let '(l, r) := fields_of s' "" in (cur :: l, r)
      else fields_of s' (cur +:+ String c "")
  end.

(** Read fields with [read] until one is malformed. *)
Fixpoint read_fields {F : Type} (read : string -> option F) (l : list string)
  : list F * option error :=
  match l with
  | [] => ([], None)
  | x :: l' =>
      match read x with
      | None => ([], Some (ErrOther "malformed field"))
      | Some f => let '(fs, e) := read_fields read l' in (f :: fs, e)
      end
  end.

Definition scan {F : Type} (read : string -> option F) (bz : option string)
  : list F * option error :=
  let '(l, rest) := fields_of (default "" bz) "" in
  let '(fs, e) := read_fields read l in
  match e, rest with
  | None, String _ _ => (fs, Some (ErrOther "unexpected EOF"))
  | _, _ => (fs, e)
  end.

Definition number (s : string) : option Z :=
  match strconv.ParseInt s with
  | (v, None) => Some v
  | _ => None
  end.

Definition read_State (x : string) : option StateField :=
  match x with
  | String "b" s => (fun v => State_BaseGasPrice (mkLegacyDec (Some v))) <$> number s
  | String "l" s => (fun v => State_LearningRate (mkLegacyDec (Some v))) <$> number s
  | String "w" s => (fun v => State_Window [v]) <$> number s
  | _ => None
  end.

Definition read_Params (x : string) : option ParamsField :=
  match x with
  | String "a" s => (fun v => Params_Alpha (mkLegacyDec (Some v))) <$> number s
  | String "b" s => (fun v => Params_Beta (mkLegacyDec (Some v))) <$> number s
  | String "g" s => (fun v => Params_Gamma (mkLegacyDec (Some v))) <$> number s
  | String "d" s => (fun v => Params_Delta (mkLegacyDec (Some v))) <$> number s
  | String "p" s => (fun v => Params_MinBaseGasPrice (mkLegacyDec (Some v))) <$> number s
  | String "m" s => (fun v => Params_MinLearningRate (mkLegacyDec (Some v))) <$> number s
  | String "M" s => (fun v => Params_MaxLearningRate (mkLegacyDec (Some v))) <$> number s
  | _ => None
  end.

(** One field on the wire; [None] when the integer does not fit. *)
Definition write (tag : ascii) (v : Z) : option string :=
  if (- 2^63 <=? v) && (v <? 2^63)
  then Some (String tag (strconv.FormatInt v +:+ ";"))
  else None.

Definition write_dec (tag : ascii) (d : LegacyDec) : option string :=
  dec_int d ≫= write tag.

Definition marshal (parts : list (option string)) : string + error :=
  match mapM id parts with
  | Some l => inl (fold_right String.append "" l)
  | None => inr (ErrOther "value cannot be encoded")
  end.

Definition marshal_State (m : State) : string + error :=
  marshal ([write_dec "b" (BaseGasPrice m); write_dec "l" (LearningRate m)]
           ++ map (write "w") (Window m)).

Definition marshal_Params (m : Params) : string + error :=
  marshal [write_dec "a" (Alpha m); write_dec "b" (Beta m);
           write_dec "g" (Gamma m); write_dec "d" (Delta m);
           write_dec "p" (MinBaseGasPrice m); write_dec "m" (MinLearningRate m);
           write_dec "M" (MaxLearningRate m)].

(** An authority is accepted when it starts with ["cosmos1"]. *)
Definition address (s : string) : string + error :=
  if String.prefix "cosmos1" s then inl s
  else inr (ErrOther "decoding bech32 failed").

Definition externals : Externals := {|
  BinaryCodec := unit;
  AccountKeeper := unit;
  AccAddressFromBech32 := address;
  KeyEnabledHeight := "EnabledHeight";
  KeyParams := "Params";
  KeyState := "State";
  State_Marshal := marshal_State;
  State_scan := scan read_State;
  Params_Marshal := marshal_Params;
  Params_scan := scan read_Params
|}.

(** A context with empty stores. *)
Definition ctx0 : Context := mkContext (fun _ => ∅) false 0.

(** The keeper of the module, with no resolver. *)
Definition keeper0 : Keeper (E := externals) :=
  mkKeeper (E := externals) tt "feemarket" tt None
           (NewMessagePool 1%positive Params_factory)
           (NewMessagePool 2%positive State_factory)
           "cosmos10d07y265gmmuvt4z0w9aw880jnsr700j6zn9kn".

Definition state1 : State :=
  mkState (mkLegacyDec (Some 5)) (mkLegacyDec (Some 125)) [7; 8].

Definition params1 : Params :=
  mkParams (mkLegacyDec (Some 1)) (mkLegacyDec (Some 2)) (mkLegacyDec (Some 3))
           (mkLegacyDec (Some 4)) (mkLegacyDec (Some 5)) (mkLegacyDec (Some 6))
           (mkLegacyDec (Some 7)).

(** A state pool with one instance, released with a window of three
    entries. *)
Definition dirty_pool : MessagePool State :=
  mkMessagePool 2%positive State_factory
                [mkState (mkLegacyDec (Some 9)) (mkLegacyDec (Some 9)) [1; 2; 3]]
                [Some 0%nat].

Definition keeper1 : Keeper (E := externals) :=
  with_statePool (E := externals) keeper0 dirty_pool.

(** The store after [state1] was set. *)
Definition ctx1 : Context := (SetState keeper1 ctx0 state1).1.

(** A store whose state and params are malformed. *)
Definition ctx_bad : Context :=
  KVStore_Set (KVStore_Set ctx0 "feemarket" "State" "b5;l12")
              "feemarket" "Params" "a1;x2;".

(** The store after [params1] was set. *)
Definition ctx2 : Context := (SetParams keeper0 ctx0 params1).1.

(** A store whose state holds one window entry and no decimal. *)
Definition ctx_window_only : Context :=
  KVStore_Set ctx0 "feemarket" "State" "w4;".

(** A use of the keeper, meant for a store whose state and params are
    malformed: a pooled read that fails, a write of the state, two pooled
    reads, a write through the last handle and its release, a pooled read
    of the params that fails, and one more pooled read of the state. *)
Definition ops1 : list KeeperOp :=
  [DoGetStateFast None; DoSetState state1; DoGetStateFast (Some 0%nat);
   DoGetStateFast (Some 0%nat);
   DoWriteState 0 (mkState LegacyOneDec LegacyOneDec [1; 2; 3]);
   DoReleaseState 0; DoGetParamsFast None; DoGetStateFast (Some 0%nat)].

(** A store whose enabled height has more digits than 64 bits hold. *)
Definition ctx_huge : Context :=
  KVStore_Set ctx0 "feemarket" "EnabledHeight" "-99999999999999999999".

(** A store whose enabled height was written with a sign. *)
Definition ctx_height : Context :=
  KVStore_Set ctx0 "feemarket" "EnabledHeight" "+42".

End Demo.

(** * Properties *)

(** ** The embedding on concrete inputs *)

Example FormatInt_1000 : strconv.FormatInt 1000 = "1000".
Proof. reflexivity. Qed.

Example FormatInt_min : strconv.FormatInt (- 2^63) = "-9223372036854775808".
Proof. reflexivity. Qed.

Example ParseInt_min : strconv.ParseInt "-9223372036854775808" = (- 2^63, None).
Proof. reflexivity. Qed.

Example ParseInt_plus : strconv.ParseInt "+17" = (17, None).
Proof. reflexivity. Qed.

Example ParseInt_big :
  strconv.ParseInt "9223372036854775808"
  = (2^63 - 1, Some (strconv.rangeError "ParseInt" "9223372036854775808")).
Proof. reflexivity. Qed.

Example ParseInt_junk :
  strconv.ParseInt "12a" = (0, Some (strconv.syntaxError "ParseInt" "12a")).
Proof. reflexivity. Qed.

Example marshal_state1 : Demo.marshal_State Demo.state1 = inl "b5;l125;w7;w8;".
Proof. reflexivity. Qed.

Example unmarshal_state1 :
  State_Unmarshal (E := Demo.externals) State_zero_value (Some "b5;l125;w7;w8;")
  = (Demo.state1, None).
Proof. reflexivity. Qed.

Example unmarshal_truncated :
  State_Unmarshal (E := Demo.externals) State_zero_value (Some "b5;l12")
  = (mkState (mkLegacyDec (Some 5)) LegacyDec_zero_value [],
     Some (ErrOther "unexpected EOF")).
Proof. reflexivity. Qed.

Example params_set_get :
  GetParams Demo.keeper0 (SetParams Demo.keeper0 Demo.ctx0 Demo.params1).1
  = (Demo.params1, None).
Proof. vm_compute. reflexivity. Qed.

Example params_fast_malformed :
  (fun r => (r.1.1.1, r.1.1.2, free (paramsPool r.1.2))) <$>
    GetParamsFast None Demo.keeper0 Demo.ctx_bad
  = Some (PooledMessage_zero_value, Some (ErrOther "malformed field"), [Some 0%nat]).
Proof. vm_compute. reflexivity. Qed.

Example height_unset : GetEnabledHeight Demo.keeper0 Demo.ctx0 = (-1, None).
Proof. reflexivity. Qed.

Example height_junk :
  GetEnabledHeight Demo.keeper0
    (KVStore_Set Demo.ctx0 "feemarket" "EnabledHeight" "1_000")
  = (0, Some (ErrNum (strconv.syntaxError "ParseInt" "1_000"))).
Proof. vm_compute. reflexivity. Qed.

Example fast_after_dirty :
  let ctx := (SetState Demo.keeper1 Demo.ctx0 Demo.state1).1 in
  (fun r => (r.1.1.1, r.1.1.2, objs (statePool r.1.2))) <$>
    GetStateFast (Some 0%nat) Demo.keeper1 ctx
  = Some (mkPooledMessage (Some 0%nat) (Some 2%positive), None, [Demo.state1]).
Proof. vm_compute. reflexivity. Qed.

(** ** [strconv] *)

Lemma digitval_digit_of (c : ascii) :
  match digit_of c with
  | Some d => strconv.digitval (strconv.byte c) = Some d /\ 0 <= d < 10
  | None =>
      strconv.digitval (strconv.byte c) = None
      \/ exists d, strconv.digitval (strconv.byte c) = Some d /\ 10 <= d
  end.
Proof.
  destruct c as [[] [] [] [] [] [] [] []];
    cbv [digit_of index_from Ascii.eqb Bool.eqb Z.add Pos.add Pos.succ];
    first [ split; [reflexivity | lia]
          | left; reflexivity
          | right; eexists; split; [reflexivity | vm_compute; discriminate] ].
Qed.

Lemma digits_value_le (s : string) : forall m v,
  0 <= m -> digits_value s m = Some v -> m <= v.
Proof.
  induction s as [|c s IH]; simpl; intros m v Hm Hv.
  - injection Hv as <-. lia.
  - pose proof (digitval_digit_of c) as Hc.
    destruct (digit_of c) as [d|]; simpl in Hv; [|discriminate].
    destruct Hc as [_ Hd]. apply IH in Hv; lia.
Qed.

(** The loop of [ParseUint] against the number the digits denote. *)
Lemma ParseUint_loop_spec (s0 s : string) : forall n,
  0 <= n < 2^64 ->
  match digits_value s n with
  | Some v =>
      strconv.ParseUint_loop s0 s n
      = if v <? 2^64 then (v, None)
        else (strconv.maxVal, Some (strconv.rangeError strconv.fnParseUint s0))
  | None =>
      exists r k,
        strconv.ParseUint_loop s0 s n
        = (r, Some (strconv.mkNumError strconv.fnParseUint s0 k))
        /\ (k = strconv.ErrRange -> r = strconv.maxVal)
  end.
Proof.
  induction s as [|c s IH]; intros n Hn.
  - simpl. destruct (Z.ltb_spec n (2^64)); [reflexivity | lia].
  - cbn [digits_value strconv.ParseUint_loop].
    pose proof (digitval_digit_of c) as Hc.
    destruct (digit_of c) as [d|]; simpl.
    + destruct Hc as [-> Hd].
      destruct (Z.geb_spec d 10) as [|_]; [lia|].
      unfold strconv.cutoffU, strconv.maxUint64, strconv.maxVal, uint64.
      change (2 ^ 64 - 1) with 18446744073709551615.
      change (18446744073709551615 / 10 + 1) with 1844674407370955162.
      destruct (Z.geb_spec n 1844674407370955162) as [Hbig|Hsmall].
      * pose proof (digits_value_le s (n * 10 + d)) as Hle.
        destruct (digits_value s (n * 10 + d)) as [v|].
        -- specialize (Hle v ltac:(lia) eq_refl).
           destruct (Z.ltb_spec v (2^64)); [lia | reflexivity].
        -- eexists _, strconv.ErrRange. split; [reflexivity | reflexivity].
      * destruct (Z.ltb_spec (n * 10 + d) (2^64)) as [Hfit|Hover].
        -- rewrite (Z.mod_small (n * 10 + d)) by lia.
           destruct (Z.ltb_spec (n * 10 + d) (n * 10)) as [|_]; [lia|].
           destruct (Z.gtb_spec (n * 10 + d) 18446744073709551615) as [|_]; [lia|].
           simpl. apply IH. lia.
        -- assert (Hw : (n * 10 + d) mod 2^64 = n * 10 + d - 2^64).
           { symmetry. apply (Z.mod_unique _ _ 1); lia. }
           rewrite Hw.
           destruct (Z.ltb_spec (n * 10 + d - 2^64) (n * 10)) as [_|]; [|lia].
           simpl.
           pose proof (digits_value_le s (n * 10 + d)) as Hle.
           destruct (digits_value s (n * 10 + d)) as [v|].
           ++ specialize (Hle v ltac:(lia) eq_refl).
              destruct (Z.ltb_spec v (2^64)); [lia | reflexivity].
           ++ eexists _, strconv.ErrRange. split; reflexivity.
    + destruct Hc as [-> | (d & -> & Hd)].
      * eexists _, strconv.ErrSyntax. split; [reflexivity | discriminate].
      * destruct (Z.geb_spec d 10) as [_|]; [|lia].
        eexists _, strconv.ErrSyntax. split; [reflexivity | discriminate].
Qed.

Lemma ParseUint_spec (s : string) :
  match unsigned_decimal s with
  | Some v =>
      strconv.ParseUint s
      = if v <? 2^64 then (v, None)
        else (strconv.maxVal, Some (strconv.rangeError strconv.fnParseUint s))
  | None =>
      exists r k,
        strconv.ParseUint s = (r, Some (strconv.mkNumError strconv.fnParseUint s k))
        /\ (k = strconv.ErrRange -> r = strconv.maxVal)
  end.
Proof.
  destruct s as [|c s].
  - simpl. eexists _, strconv.ErrSyntax. split; [reflexivity | discriminate].
  - apply (ParseUint_loop_spec (String c s) (String c s) 0). lia.
Qed.

Lemma int64_small (x : Z) : - 2^63 <= x < 2^63 -> int64 x = x.
Proof. intros Hx. unfold int64. rewrite Z.mod_small; lia. Qed.

Lemma int64_min : int64 (2^63) = - 2^63.
Proof. reflexivity. Qed.

(** What [ParseInt] does once the sign is taken off, against the signed
    reading of the digits. *)
Lemma ParseInt_tail (s0 s1 : string) (neg : bool) :
  let res :=
    let '(un, err) := strconv.ParseUint s1 in
    match err with
    | Some (strconv.mkNumError _ _ strconv.ErrSyntax) =>
        (0, Some (strconv.syntaxError strconv.fnParseInt s0))
    | _ =>
        if negb neg && (un >=? strconv.cutoffI)
        then (strconv.cutoffI - 1, Some (strconv.rangeError strconv.fnParseInt s0))
        else if neg && (un >? strconv.cutoffI)
        then (- strconv.cutoffI, Some (strconv.rangeError strconv.fnParseInt s0))
        else let n := int64 un in (if neg then int64 (- n) else n, None)
    end in
  match (v ← (if neg then Z.opp <$> unsigned_decimal s1 else unsigned_decimal s1);
         if (- 2^63 <=? v) && (v <? 2^63) then Some v else None) with
  | Some v => res = (v, None)
  | None => exists r k, res = (r, Some (strconv.mkNumError strconv.fnParseInt s0 k))
  end.
Proof.
  intros res. subst res.
  pose proof (ParseUint_spec s1) as Hu.
  assert (Hpos : forall v, unsigned_decimal s1 = Some v -> 0 <= v).
  { intros v Hv. destruct s1 as [|c s1']; [discriminate|].
    apply (digits_value_le (String c s1') 0 v); [lia | exact Hv]. }
  destruct (unsigned_decimal s1) as [v|].
  - specialize (Hpos v eq_refl). rewrite Hu. unfold strconv.cutoffI, strconv.maxVal.
    destruct (Z.ltb_spec v (2^64)) as [Hfit|Hover].
    + destruct neg; simpl.
      * destruct (Z.gtb_spec v (2^63)) as [Hgt|Hle].
        -- destruct (Z.leb_spec (- 2^63) (- v)); [lia|]. simpl. eauto.
        -- destruct (Z.leb_spec (- 2^63) (- v)); [|lia].
           destruct (Z.ltb_spec (- v) (2^63)); [|lia]. simpl.
           destruct (Z.eq_dec v (2^63)) as [->|Hne]; [reflexivity|].
           rewrite (int64_small v) by lia. rewrite int64_small by lia. reflexivity.
      * destruct (Z.geb_spec v (2^63)) as [Hge|Hlt].
        -- destruct (Z.leb_spec (- 2^63) v); [|lia].
           destruct (Z.ltb_spec v (2^63)); [lia|]. simpl. eauto.
        -- destruct (Z.leb_spec (- 2^63) v); [|lia].
           destruct (Z.ltb_spec v (2^63)); [|lia]. simpl.
           rewrite int64_small by lia. reflexivity.
    + destruct neg; simpl.
      * destruct (Z.leb_spec (- 2^63) (- v)); [lia|]. simpl. eauto.
      * destruct (Z.ltb_spec v (2^63)); [lia|]. rewrite andb_false_r. simpl. eauto.
  - assert (Hnone : (v ← (if neg then Z.opp <$> None else None);
                     if (- 2^63 <=? v) && (v <? 2^63) then Some v else None) = None)
      by (destruct neg; reflexivity).
    rewrite Hnone. destruct Hu as (r & k & -> & Hr).
    destruct k.
    + simpl. eauto.
    + rewrite (Hr eq_refl). destruct neg; simpl; eauto.
Qed.

Lemma sign_cases (c : ascii) :
  (c = "+"%char /\ strconv.byte c = 43)
  \/ (c = "-"%char /\ strconv.byte c = 45)
  \/ (strconv.byte c <> 43 /\ strconv.byte c <> 45
      /\ forall r, decimal_integer (String c r) = unsigned_decimal (String c r)).
Proof.
  destruct c as [[] [] [] [] [] [] [] []];
    first [ left; split; reflexivity
          | right; left; split; reflexivity
          | right; right; split; [vm_compute; discriminate |
                                  split; [vm_compute; discriminate | reflexivity]] ].
Qed.

(** [ParseInt] accepts exactly the decimal integers that fit 64 bits, and
    returns the integer. *)
Lemma ParseInt_spec (s : string) :
  match decimal_int64 s with
  | Some v => strconv.ParseInt s = (v, None)
  | None => exists r k, strconv.ParseInt s = (r, Some (strconv.mkNumError strconv.fnParseInt s k))
  end.
Proof.
  destruct s as [|c0 rest].
  - simpl. eauto.
  - unfold decimal_int64, strconv.ParseInt.
    destruct (sign_cases c0) as [[-> Hb] | [[-> Hb] | (Hp & Hm & Hd)]].
    + change (decimal_integer (String "+" rest)) with (unsigned_decimal rest).
      change (strconv.byte "+" =? 43) with true. cbv iota.
      exact (ParseInt_tail (String "+" rest) rest false).
    + change (decimal_integer (String "-" rest)) with (Z.opp <$> unsigned_decimal rest).
      change (strconv.byte "-" =? 43) with false.
      change (strconv.byte "-" =? 45) with true. cbv iota.
      exact (ParseInt_tail (String "-" rest) rest true).
    + rewrite Hd.
      destruct (Z.eqb_spec (strconv.byte c0) 43) as [|_]; [contradiction|].
      destruct (Z.eqb_spec (strconv.byte c0) 45) as [|_]; [contradiction|].
      exact (ParseInt_tail (String c0 rest) (String c0 rest) false).
Qed.

Lemma digit_of_digit (d : Z) : 0 <= d < 10 -> digit_of (strconv.digit d) = Some d.
Proof.
  intros Hd.
  assert (Hc : d = 0 \/ d = 1 \/ d = 2 \/ d = 3 \/ d = 4 \/ d = 5 \/ d = 6
               \/ d = 7 \/ d = 8 \/ d = 9) by lia.
  repeat (destruct Hc as [-> | Hc]; [reflexivity|]). subst d. reflexivity.
Qed.

Lemma denotes_nil : denotes "" 0.
Proof. split; [lia|]. intros n. simpl. f_equal. lia. Qed.

Lemma denotes_cons (d : Z) (s : string) (u : Z) :
  0 <= d < 10 -> denotes s u ->
  denotes (String (strconv.digit d) s) (d * 10 ^ Z.of_nat (String.length s) + u).
Proof.
  intros Hd [Hu Hs]. split.
  - assert (0 <= 10 ^ Z.of_nat (String.length s)) by (apply Z.pow_nonneg; lia). nia.
  - intros n. cbn [digits_value String.length].
    rewrite (digit_of_digit d Hd). simpl. rewrite Hs. f_equal.
    rewrite Nat2Z.inj_succ, Z.pow_succ_r by lia. ring.
Qed.

Lemma denotes_unsigned (c : ascii) (s : string) (u : Z) :
  denotes (String c s) u -> unsigned_decimal (String c s) = Some u.
Proof. intros [_ Hs]. unfold unsigned_decimal. rewrite Hs. f_equal. Qed.

Lemma formatBits_loop_denotes (rounds : nat) : forall us a v,
  0 <= us -> denotes a v ->
  exists us' a' v',
    strconv.formatBits_loop rounds us a = (us', a')
    /\ denotes a' v' /\ 0 <= us'
    /\ us' * 10 ^ Z.of_nat (String.length a') + v'
       = us * 10 ^ Z.of_nat (String.length a) + v
    /\ (us < 100 ^ (Z.of_nat rounds + 1) -> us' < 100).
Proof.
  induction rounds as [|rounds IH]; intros us a v Hus Ha.
  - exists us, a, v. simpl. repeat split; try assumption; try apply Ha. lia.
  - cbn [strconv.formatBits_loop].
    destruct (Z.geb_spec us 100) as [Hge|Hlt].
    + set (two := us mod 100).
      assert (Htwo : 0 <= two < 100) by (apply Z.mod_pos_bound; lia).
      assert (Hd1 : 0 <= two / 10 < 10).
      { split; [apply Z.div_pos; lia | apply Z.div_lt_upper_bound; lia]. }
      assert (Hd0 : 0 <= two mod 10 < 10) by (apply Z.mod_pos_bound; lia).
      pose proof (denotes_cons _ _ _ Hd1 (denotes_cons _ _ _ Hd0 Ha)) as Ha2.
      destruct (IH (us / 100) _ _ ltac:(apply Z.div_pos; lia) Ha2)
        as (us' & a' & v' & -> & Ha' & Hus' & Heq & Hbound).
      exists us', a', v'. repeat split; try assumption; try apply Ha'.
      * rewrite Heq. cbn [String.length].
        rewrite !Nat2Z.inj_succ, !Z.pow_succ_r by lia.
        pose proof (Z.div_mod us 100 ltac:(lia)) as Hdm.
        pose proof (Z.div_mod two 10 ltac:(lia)) as Hdm2.
        fold two in Hdm.
        set (P := 10 ^ Z.of_nat (String.length a)).
        rewrite Hdm at 2. rewrite Hdm2 at 3. ring.
      * intros Hlt. apply Hbound. apply Z.div_lt_upper_bound; [lia|].
        rewrite Nat2Z.inj_succ in Hlt.
        replace (Z.succ (Z.of_nat rounds) + 1) with (Z.succ (Z.of_nat rounds + 1)) in Hlt by lia.
        rewrite Z.pow_succ_r in Hlt by lia. exact Hlt.
    + exists us, a, v. repeat split; try assumption; try apply Ha.
      intros _. exact Hlt.
Qed.

(** The digits [formatBits] prints for a 64-bit value denote it, and the
    first of them is a digit. *)
Lemma formatBits_denotes (u : Z) :
  0 <= u < 2^64 ->
  exists d r, 0 <= d < 10
    /\ strconv.formatBits u false = String (strconv.digit d) r
    /\ denotes (String (strconv.digit d) r) u.
Proof.
  intros Hu. unfold strconv.formatBits.
  destruct (formatBits_loop_denotes 10 u "" 0 ltac:(lia) denotes_nil)
    as (us & a & v & -> & Ha & Hus & Heq & Hbound).
  specialize (Hbound ltac:(simpl; lia)).
  assert (Hd0 : 0 <= us mod 10 < 10) by (apply Z.mod_pos_bound; lia).
  pose proof (denotes_cons _ _ _ Hd0 Ha) as Ha1.
  simpl in Heq.
  pose proof (Z.div_mod us 10 ltac:(lia)) as Hdm.
  destruct (Z.geb_spec us 10) as [Hge|Hlt].
  - assert (Hd1 : 0 <= us / 10 < 10).
    { split; [apply Z.div_pos; lia | apply Z.div_lt_upper_bound; lia]. }
    pose proof (denotes_cons _ _ _ Hd1 Ha1) as Ha2.
    exists (us / 10), (String (strconv.digit (us mod 10)) a).
    split; [exact Hd1 | split; [reflexivity|]].
    replace u with (us / 10 * 10 ^ Z.of_nat (String.length (String (strconv.digit (us mod 10)) a))
                    + (us mod 10 * 10 ^ Z.of_nat (String.length a) + v)); [exact Ha2|].
    cbn [String.length]. rewrite Nat2Z.inj_succ, Z.pow_succ_r by lia.
    set (P := 10 ^ Z.of_nat (String.length a)) in *. nia.
  - exists (us mod 10), a. split; [exact Hd0 | split; [reflexivity|]].
    replace u with (us mod 10 * 10 ^ Z.of_nat (String.length a) + v); [exact Ha1|].
    rewrite Z.mod_small by lia. lia.
Qed.

Lemma decimal_integer_digit (c : ascii) (d : Z) (r : string) :
  digit_of c = Some d -> decimal_integer (String c r) = unsigned_decimal (String c r).
Proof.
  destruct c as [[] [] [] [] [] [] [] []]; intros Hc; vm_compute in Hc;
    try discriminate Hc; reflexivity.
Qed.

Lemma formatBits_neg (u : Z) :
  strconv.formatBits u true = String "-" (strconv.formatBits (uint64 (- u)) false).
Proof.
  unfold strconv.formatBits.
  destruct (strconv.formatBits_loop 10 (uint64 (- u)) "") as [us a]. reflexivity.
Qed.

(** What [FormatInt] prints for a 64-bit integer is a decimal integer that
    denotes it. *)
Lemma FormatInt_decimal (h : Z) : is_int64 h -> decimal_int64 (strconv.FormatInt h) = Some h.
Proof.
  unfold is_int64. intros Hh.
  assert (Hgo : forall s, decimal_integer s = Some h -> decimal_int64 s = Some h).
  { intros s Hs. unfold decimal_int64. rewrite Hs. simpl.
    destruct (Z.leb_spec (- 2^63) h); [|lia].
    destruct (Z.ltb_spec h (2^63)); [reflexivity | lia]. }
  apply Hgo. unfold strconv.FormatInt.
  destruct (Z.leb_spec 0 h) as [Hpos|Hneg]; simpl.
  - assert (Hfb : forall d r, 0 <= d < 10 -> denotes (String (strconv.digit d) r) h ->
                              decimal_integer (String (strconv.digit d) r) = Some h).
    { intros d r Hd Hden.
      rewrite (decimal_integer_digit _ d r (digit_of_digit d Hd)).
      apply denotes_unsigned, Hden. }
    destruct (Z.ltb_spec h 100) as [Hsmall|Hbig].
    + unfold strconv.small.
      destruct (Z.ltb_spec h 10) as [H10|H10].
      * apply Hfb; [lia|].
        replace h with (h * 10 ^ Z.of_nat (String.length "") + 0) at 2 by (simpl; lia).
        apply denotes_cons; [lia | apply denotes_nil].
      * assert (Hd1 : 0 <= h / 10 < 10).
        { split; [apply Z.div_pos; lia | apply Z.div_lt_upper_bound; lia]. }
        assert (Hd0 : 0 <= h mod 10 < 10) by (apply Z.mod_pos_bound; lia).
        apply Hfb; [exact Hd1|].
        pose proof (denotes_cons _ _ _ Hd1 (denotes_cons _ _ _ Hd0 denotes_nil)) as Hden.
        simpl in Hden.
        replace h with (h / 10 * 10 + (h mod 10 * 1 + 0)) at 3; [exact Hden|].
        pose proof (Z.div_mod h 10 ltac:(lia)). lia.
    + unfold uint64. rewrite Z.mod_small by lia.
      destruct (Z.ltb_spec h 0); [lia|].
      destruct (formatBits_denotes h ltac:(lia)) as (d & r & Hd & -> & Hden).
      apply Hfb; assumption.
  - destruct (Z.ltb_spec h 0); [|lia].
    rewrite formatBits_neg.
    assert (Hu : uint64 (- uint64 h) = - h).
    { unfold uint64.
      assert (Hw : h mod 2^64 = h + 2^64) by (symmetry; apply (Z.mod_unique _ _ (-1)); lia).
      rewrite Hw. symmetry. apply (Z.mod_unique _ _ (-1)); lia. }
    rewrite Hu.
    destruct (formatBits_denotes (- h) ltac:(lia)) as (d & r & Hd & -> & Hden).
    change (decimal_integer (String "-" (String (strconv.digit d) r)))
      with (Z.opp <$> unsigned_decimal (String (strconv.digit d) r)).
    rewrite (denotes_unsigned _ _ _ Hden). simpl. f_equal. lia.
Qed.

(** [ParseInt] reads back what [FormatInt] prints. *)
Lemma ParseInt_FormatInt (h : Z) :
  is_int64 h -> strconv.ParseInt (strconv.FormatInt h) = (h, None).
Proof.
  intros Hh. pose proof (ParseInt_spec (strconv.FormatInt h)) as Hs.
  rewrite (FormatInt_decimal h Hh) in Hs. exact Hs.
Qed.

(** ** The message pool *)
Section PoolProperties.
Context {T : Type}.
Implicit Types (p : MessagePool T) (choice : option nat).

(** [Get] on a well-formed pool gives a handle on an instance, one of the
    pool's or a new one, and leaves a well-formed pool. The last clause
    counts: once that instance is put back, as many instances are out as
    before the [Get]. *)
Lemma MessagePool_Get_wf p choice :
  pool_wf p ->
  exists a v p',
    MessagePool_Get choice p = (mkPooledMessage (Some a) (Some (self p)), p')
    /\ objs p' !! a = Some v
    /\ pool_wf p'
    /\ self p' = self p
    /\ (length (objs p') - S (length (free p')))%nat = checked_out p.
Proof.
  intros Hwf. unfold MessagePool_Get, sync_Pool_Get.
  assert (Hnew : exists a v p',
    (let '(obj, p') :=
       (Some (length (objs p)),
        mkMessagePool (self p) (factory p) (objs p ++ [factory p]) (free p))
     in (mkPooledMessage obj (Some (self p)), p'))
    = (mkPooledMessage (Some a) (Some (self p)), p')
    /\ objs p' !! a = Some v /\ pool_wf p' /\ self p' = self p
    /\ (length (objs p') - S (length (free p')))%nat = checked_out p).
  { eexists _, _, _. split; [reflexivity|]. cbn [objs free self].
    split; [apply list_lookup_middle; reflexivity|].
    split; [|split; [reflexivity|]].
    - unfold pool_wf in *. cbn [objs free]. eapply Forall_impl; [exact Hwf|].
      intros o (a & -> & Ha). exists a. split; [reflexivity|].
      rewrite length_app. simpl. lia.
    - unfold checked_out. rewrite length_app. simpl. lia. }
  destruct choice as [i|]; [|exact Hnew]. simpl.
  destruct (free p !! i) as [o|] eqn:Hi; [|exact Hnew]. simpl.
  pose proof Hwf as Hall. unfold pool_wf in Hall.
  rewrite Forall_lookup in Hall. destruct (Hall i o Hi) as (a & -> & Ha).
  destruct (lookup_lt_is_Some_2 (objs p) a Ha) as [v Hv].
  exists a, v, (mkMessagePool (self p) (factory p) (objs p) (delete i (free p))).
  split; [reflexivity|]. cbn [objs free self].
  split; [exact Hv|]. split; [|split; [reflexivity|]].
  - unfold pool_wf. cbn [objs free]. apply Forall_delete. exact Hwf.
  - unfold checked_out. rewrite length_delete by eauto.
    apply lookup_lt_Some in Hi. lia.
Qed.

(** The two ways of [Get]: an item of the pool, or a new instance. *)
Lemma MessagePool_Get_cases p choice :
  exists o p',
    MessagePool_Get choice p = (mkPooledMessage o (Some (self p)), p')
    /\ ((objs p' = objs p /\ free p ≡ₚ o :: free p')
        \/ (o = Some (length (objs p)) /\ objs p' = objs p ++ [factory p]
            /\ free p' = free p)).
Proof.
  unfold MessagePool_Get, sync_Pool_Get.
  destruct choice as [i|]; simpl.
  - destruct (free p !! i) as [o|] eqn:Hi; simpl.
    + eexists _, _. split; [reflexivity|]. left. cbn [objs free].
      split; [reflexivity | apply delete_Permutation, Hi].
    + eexists _, _. split; [reflexivity|]. right. cbn [objs free]. auto.
  - eexists _, _. split; [reflexivity|]. right. cbn [objs free]. auto.
Qed.

Lemma pool_inv_op (st : MessagePool T * list PooledMessage) (op : PoolOp) :
  pool_inv st -> pool_inv (pool_op st op).
Proof.
  destruct st as [p live]. unfold pool_inv. cbn [fst snd].
  intros (Hnd & Hall & Hlen & Hpool).
  destruct op as [choice | i | i]; cbn [pool_op fst snd].
  - destruct (MessagePool_Get_cases p choice)
      as (o & p' & -> & [[Hobjs Hfree] | (-> & Hobjs & Hfree)]);
      cbn [fst snd fmap list_fmap Value pool].
    + assert (Hperm : free p' ++ o :: (Value <$> live) ≡ₚ free p ++ (Value <$> live)).
      { rewrite Hfree. rewrite <- Permutation_middle. reflexivity. }
      rewrite Hobjs.
      split; [rewrite Hperm; exact Hnd|].
      split; [rewrite Hperm; exact Hall|].
      split; [|constructor; [eauto | exact Hpool]].
      rewrite Hfree in Hlen. simpl in *. lia.
    + rewrite Hobjs, Hfree, length_app. cbn [length].
      assert (Hperm : free p ++ Some (length (objs p)) :: (Value <$> live)
                      ≡ₚ Some (length (objs p)) :: (free p ++ (Value <$> live))).
      { rewrite <- Permutation_middle. reflexivity. }
      split; [|split; [|split; [lia | constructor; [eauto | exact Hpool]]]].
      * rewrite Hperm. constructor; [|exact Hnd].
        intros Hin. rewrite Forall_forall in Hall.
        destruct (Hall _ Hin) as (a & [= <-] & Ha). lia.
      * rewrite Hperm. constructor; [exists (length (objs p)); split; [reflexivity | lia]|].
        eapply Forall_impl; [exact Hall|].
        intros o (a & -> & Ha). exists a. split; [reflexivity | lia].
  - destruct (live !! i) as [h|] eqn:Hi; [|auto].
    pose proof (delete_Permutation live i h Hi) as Hlive.
    assert (Hh : is_Some (pool h)).
    { rewrite Forall_forall in Hpool. apply Hpool. eapply list_elem_of_lookup_2, Hi. }
    unfold Release. destruct Hh as [r ->]. cbn [fst snd MessagePool_put objs free].
    assert (Hperm : (Value h :: free p) ++ (Value <$> delete i live)
                    ≡ₚ free p ++ (Value <$> live)).
    { rewrite Hlive at 2. rewrite fmap_cons, <- Permutation_middle. reflexivity. }
    split; [rewrite Hperm; exact Hnd|].
    split; [rewrite Hperm; exact Hall|].
    split.
    + rewrite (Permutation_length Hlive) in Hlen. simpl in *. lia.
    + rewrite Hlive in Hpool. inversion Hpool; assumption.
  - destruct (free p !! i) as [o|] eqn:Hi; [|auto].
    pose proof (delete_Permutation (free p) i o Hi) as Hfree.
    cbn [fst snd objs free].
    rewrite Hfree in Hnd, Hall. simpl in Hnd, Hall.
    apply NoDup_cons in Hnd as [_ Hnd]. apply Forall_cons in Hall as [_ Hall].
    split; [exact Hnd|]. split; [exact Hall|]. split; [|exact Hpool].
    rewrite (Permutation_length Hfree) in Hlen. simpl in Hlen. lia.
Qed.

Lemma pool_inv_run (ops : list PoolOp) : forall st : MessagePool T * list PooledMessage,
  pool_inv st -> pool_inv (pool_run st ops).
Proof.
  induction ops as [|op ops IH]; intros st Hst; [exact Hst|].
  apply IH, pool_inv_op, Hst.
Qed.

(** However the calls of [Get] and [Release] on a new pool follow each
    other, whatever the runtime chooses at each [Get] and whatever it drops
    in between: no two handles that are out point to the same instance, no
    handle that is out points to an instance that is also in the pool, and
    the instances out or in the pool are no more than the factory made. *)
Theorem pool_run_no_alias (addr : PoolRef) (fac : T) (ops : list PoolOp) :
  let st := pool_run (NewMessagePool addr fac, []) ops in
  NoDup (Value <$> st.2)
  /\ (forall h, h ∈ st.2 ->
        exists a, Value h = Some a /\ is_Some (objs st.1 !! a) /\ Some a ∉ free st.1)
  /\ (length (free st.1) + length st.2 <= length (objs st.1))%nat.
Proof.
  intros st.
  assert (Hinv : pool_inv st).
  { apply pool_inv_run. unfold pool_inv, NewMessagePool. cbn.
    repeat split; try constructor. }
  destruct Hinv as (Hnd & Hall & Hlen & _).
  apply NoDup_app in Hnd as (_ & Hdisj & Hnd).
  split; [exact Hnd|]. split; [|exact Hlen].
  intros h Hh.
  assert (Hin : Value h ∈ Value <$> st.2) by (apply list_elem_of_fmap_2, Hh).
  rewrite Forall_forall in Hall.
  destruct (Hall (Value h)) as (a & Ha & Hlt); [apply elem_of_app; auto|].
  exists a. split; [exact Ha|]. split; [apply lookup_lt_is_Some_2, Hlt|].
  rewrite <- Ha. intros Hfree. exact (Hdisj _ Hfree Hin).
Qed.

Lemma pool_wf_store_obj p a (v : T) : pool_wf p -> pool_wf (store_obj a v p).
Proof.
  unfold pool_wf, store_obj. cbn [objs free]. rewrite length_insert. trivial.
Qed.

Lemma pool_wf_put p a :
  (a < length (objs p))%nat -> pool_wf p -> pool_wf (MessagePool_put (Some a) p).
Proof.
  intros Ha Hwf. unfold pool_wf, MessagePool_put. cbn [objs free].
  constructor; [eauto | exact Hwf].
Qed.

End PoolProperties.

(** ** Decoding in place *)
Section CodecProperties.
Context {E : Externals}.

(** Decoding appends the window entries read to the receiver's window. *)
Lemma fold_State_set_Window (fs : list StateField) : forall m,
  Window (fold_left State_set fs m) = Window m ++ concat (omap window_of fs).
Proof.
  induction fs as [|f fs IH]; intros m; simpl.
  - rewrite app_nil_r. reflexivity.
  - rewrite IH. destruct f; simpl; [reflexivity | reflexivity |].
    rewrite <- app_assoc. reflexivity.
Qed.

Lemma State_Unmarshal_Window (m : State) (bz : option bytes) :
  Window (State_Unmarshal m bz).1 = Window m ++ decoded_Window bz.
Proof.
  unfold State_Unmarshal, decoded_Window.
  destruct (State_scan bz) as [fs err]. simpl. apply fold_State_set_Window.
Qed.

(** The error of a decode depends on the bytes only. *)
Lemma State_Unmarshal_error (m : State) (bz : option bytes) :
  (State_Unmarshal m bz).2 = (State_scan bz).2.
Proof. unfold State_Unmarshal. destruct (State_scan bz). reflexivity. Qed.

Lemma Params_Unmarshal_error (m : Params) (bz : option bytes) :
  (Params_Unmarshal m bz).2 = (Params_scan bz).2.
Proof. unfold Params_Unmarshal. destruct (Params_scan bz). reflexivity. Qed.

End CodecProperties.

(** ** The keeper *)
Section KeeperProperties.
Context {E : Externals}.
Implicit Types (k : Keeper) (ctx : Context) (choice : option nat).

(** *** The pooled fast paths *)

(** [GetStateFast] on a well-formed pool, step by step: the instance [Get]
    provides, its contents [v], and what is returned in either case of
    the decode. *)
Lemma GetStateFast_run choice k ctx :
  pool_wf (statePool k) ->
  exists a v p1,
    MessagePool_Get choice (statePool k)
    = (mkPooledMessage (Some a) (Some (self (statePool k))), p1)
    /\ objs p1 !! a = Some v
    /\ pool_wf p1
    /\ (length (objs p1) - S (length (free p1)))%nat = checked_out (statePool k)
    /\ GetStateFast choice k ctx =
       let bz := KVStore ctx (storeKey k) !! KeyState in
       let v1 := (State_Unmarshal (mkState (BaseGasPrice v) (LearningRate v) []) bz).1 in
       match (State_scan bz).2 with
       | Some e =>
           Some (PooledMessage_zero_value, Some e,
                 with_statePool k (MessagePool_put (Some a) (store_obj a v1 p1)),
                 deferred_Release ctx)
       | None =>
           Some (mkPooledMessage (Some a) (Some (self (statePool k))), None,
                 with_statePool k (store_obj a v1 p1), deferred_Release ctx)
       end.
Proof.
  intros Hwf.
  destruct (MessagePool_Get_wf (statePool k) choice Hwf)
    as (a & v & p1 & Hget & Hv & Hwf1 & _ & Hcount).
  exists a, v, p1. repeat (split; [assumption|]).
  unfold GetStateFast. rewrite Hget. simpl. rewrite Hv. simpl.
  unfold State_Unmarshal.
  destruct (State_scan (KVStore ctx (storeKey k) !! KeyState)) as [fs [e|]];
    reflexivity.
Qed.

Lemma GetParamsFast_run choice k ctx :
  pool_wf (paramsPool k) ->
  exists a v p1,
    MessagePool_Get choice (paramsPool k)
    = (mkPooledMessage (Some a) (Some (self (paramsPool k))), p1)
    /\ objs p1 !! a = Some v
    /\ pool_wf p1
    /\ (length (objs p1) - S (length (free p1)))%nat = checked_out (paramsPool k)
    /\ GetParamsFast choice k ctx =
       let bz := KVStore ctx (storeKey k) !! KeyParams in
       let v1 := (Params_Unmarshal v bz).1 in
       match (Params_scan bz).2 with
       | Some e =>
           Some (PooledMessage_zero_value, Some e,
                 with_paramsPool k (MessagePool_put (Some a) (store_obj a v1 p1)),
                 deferred_Release ctx)
       | None =>
           Some (mkPooledMessage (Some a) (Some (self (paramsPool k))), None,
                 with_paramsPool k (store_obj a v1 p1), deferred_Release ctx)
       end.
Proof.
  intros Hwf.
  destruct (MessagePool_Get_wf (paramsPool k) choice Hwf)
    as (a & v & p1 & Hget & Hv & Hwf1 & _ & Hcount).
  exists a, v, p1. repeat (split; [assumption|]).
  unfold GetParamsFast. rewrite Hget. simpl. rewrite Hv. simpl.
  unfold Params_Unmarshal.
  destruct (Params_scan (KVStore ctx (storeKey k) !! KeyParams)) as [fs [e|]];
    reflexivity.
Qed.

(** The fast paths never fault on a well-formed pool, and leave the pool
    well-formed. *)
Lemma GetStateFast_total choice k ctx :
  pool_wf (statePool k) ->
  exists h err k' ctx',
    GetStateFast choice k ctx = Some (h, err, k', ctx') /\ pool_wf (statePool k').
Proof.
  intros Hwf.
  destruct (GetStateFast_run choice k ctx Hwf) as (a & v & p1 & _ & Hv & Hwf1 & _ & ->).
  cbv zeta.
  destruct (State_scan (KVStore ctx (storeKey k) !! KeyState)).2;
    eexists _, _, _, _; (split; [reflexivity|]); cbn [statePool with_statePool].
  - apply pool_wf_put, pool_wf_store_obj, Hwf1.
    cbn [objs store_obj]. rewrite length_insert. eapply lookup_lt_Some, Hv.
  - apply pool_wf_store_obj, Hwf1.
Qed.

Lemma GetParamsFast_total choice k ctx :
  pool_wf (paramsPool k) ->
  exists h err k' ctx',
    GetParamsFast choice k ctx = Some (h, err, k', ctx') /\ pool_wf (paramsPool k').
Proof.
  intros Hwf.
  destruct (GetParamsFast_run choice k ctx Hwf) as (a & v & p1 & _ & Hv & Hwf1 & _ & ->).
  cbv zeta.
  destruct (Params_scan (KVStore ctx (storeKey k) !! KeyParams)).2;
    eexists _, _, _, _; (split; [reflexivity|]); cbn [paramsPool with_paramsPool].
  - apply pool_wf_put, pool_wf_store_obj, Hwf1.
    cbn [objs store_obj]. rewrite length_insert. eapply lookup_lt_Some, Hv.
  - apply pool_wf_store_obj, Hwf1.
Qed.

(** C1. On the pooled fast path for the state, whatever instance the pool
    provides (a recycled one, with whatever window it was released with,
    or a new one) and whatever the runtime's choice, a successful
    [GetStateFast] returns the handle [Get] made, and the instance it
    points to has as its window exactly the entries decoded from the
    stored bytes: nothing of the window of the previous user is left. *)
Theorem GetStateFast_Window_is_decoded choice k ctx :
  pool_wf (statePool k) ->
  (State_scan (KVStore ctx (storeKey k) !! KeyState)).2 = None ->
  exists a v k' ctx',
    GetStateFast choice k ctx
    = Some ((MessagePool_Get choice (statePool k)).1, None, k', ctx')
    /\ Value (MessagePool_Get choice (statePool k)).1 = Some a
    /\ objs (statePool k') !! a = Some v
    /\ Window v = decoded_Window (KVStore ctx (storeKey k) !! KeyState).
Proof.
  intros Hwf Hok.
  destruct (GetStateFast_run choice k ctx Hwf)
    as (a & v & p1 & Hget & Hv & _ & _ & Hrun).
  cbv zeta in Hrun. rewrite Hok in Hrun.
  eexists a, _, _, _. rewrite Hget.
  split; [exact Hrun|]. split; [reflexivity|].
  cbn [statePool with_statePool store_obj objs].
  split.
  - apply list_lookup_insert_eq. eapply lookup_lt_Some, Hv.
  - rewrite State_Unmarshal_Window. reflexivity.
Qed.

(** C2. When the decode fails, [GetStateFast] and [GetParamsFast] return
    the zero handle and the decode error, and before that they put the
    instance [Get] provided back into its pool: it heads the pool's free
    list, and as many instances are out as before the call. *)
Theorem Fast_decode_failure_releases choice k ctx :
  pool_wf (statePool k) ->
  pool_wf (paramsPool k) ->
  (forall e,
      (exists m, (State_Unmarshal m (KVStore ctx (storeKey k) !! KeyState)).2 = Some e) ->
      exists k' ctx',
        GetStateFast choice k ctx = Some (PooledMessage_zero_value, Some e, k', ctx')
        /\ free (statePool k')
           = Value (MessagePool_Get choice (statePool k)).1
             :: free (MessagePool_Get choice (statePool k)).2
        /\ checked_out (statePool k') = checked_out (statePool k)
        /\ paramsPool k' = paramsPool k)
  /\ (forall e,
      (exists m, (Params_Unmarshal m (KVStore ctx (storeKey k) !! KeyParams)).2 = Some e) ->
      exists k' ctx',
        GetParamsFast choice k ctx = Some (PooledMessage_zero_value, Some e, k', ctx')
        /\ free (paramsPool k')
           = Value (MessagePool_Get choice (paramsPool k)).1
             :: free (MessagePool_Get choice (paramsPool k)).2
        /\ checked_out (paramsPool k') = checked_out (paramsPool k)
        /\ statePool k' = statePool k).
Proof.
  intros HwfS HwfP. split; intros e [m He].
  - rewrite State_Unmarshal_error in He.
    destruct (GetStateFast_run choice k ctx HwfS)
      as (a & v & p1 & Hget & Hv & _ & Hcount & Hrun).
    cbv zeta in Hrun. rewrite He in Hrun.
    eexists _, _. split; [exact Hrun|]. rewrite Hget.
    cbn [statePool paramsPool with_statePool MessagePool_put store_obj objs free fst snd Value].
    split; [reflexivity|]. split; [|reflexivity].
    unfold checked_out at 1, MessagePool_put, store_obj. cbn [objs free length].
    rewrite length_insert. exact Hcount.
  - rewrite Params_Unmarshal_error in He.
    destruct (GetParamsFast_run choice k ctx HwfP)
      as (a & v & p1 & Hget & Hv & _ & Hcount & Hrun).
    cbv zeta in Hrun. rewrite He in Hrun.
    eexists _, _. split; [exact Hrun|]. rewrite Hget.
    cbn [statePool paramsPool with_paramsPool MessagePool_put store_obj objs free fst snd Value].
    split; [reflexivity|]. split; [|reflexivity].
    unfold checked_out at 1, MessagePool_put, store_obj. cbn [objs free length].
    rewrite length_insert. exact Hcount.
Qed.

(** *** The plain paths *)

Lemma KVStore_Set_Get ctx (sk : string) (key bz : bytes) :
  KVStore (KVStore_Set ctx sk key bz) sk !! key = Some bz.
Proof.
  unfold KVStore_Set. cbn [KVStore]. rewrite decide_True by reflexivity.
  apply lookup_insert_eq.
Qed.

(** [SetState] then [GetState] is the encoding followed by the decoding
    into a zero value. *)
Lemma SetState_GetState k ctx (v : State) (bz : bytes) :
  State_Marshal v = inl bz ->
  exists ctx',
    SetState k ctx v = (ctx', None)
    /\ KVStore ctx' (storeKey k) !! KeyState = Some bz
    /\ GetState k ctx' =
       match State_Unmarshal State_zero_value (Some bz) with
       | (_, Some e) => (State_zero_value, Some e)
       | (s, None) => (s, None)
       end.
Proof.
  intros Hm. unfold SetState. rewrite Hm. eexists. split; [reflexivity|].
  split; [apply KVStore_Set_Get|].
  unfold GetState. cbv zeta. rewrite KVStore_Set_Get. reflexivity.
Qed.

Lemma SetParams_GetParams k ctx (v : Params) (bz : bytes) :
  Params_Marshal v = inl bz ->
  exists ctx',
    SetParams k ctx v = (ctx', None)
    /\ KVStore ctx' (storeKey k) !! KeyParams = Some bz
    /\ GetParams k ctx' =
       match Params_Unmarshal Params_zero_value (Some bz) with
       | (_, Some e) => (Params_zero_value, Some e)
       | (s, None) => (s, None)
       end.
Proof.
  intros Hm. unfold SetParams. rewrite Hm. eexists. split; [reflexivity|].
  split; [apply KVStore_Set_Get|].
  unfold GetParams. cbv zeta. rewrite KVStore_Set_Get. reflexivity.
Qed.


(** C4. When the encoding fails, [SetState] and [SetParams] return the
    encode error and the context is what it was: nothing is written. When
    it succeeds, the whole encoding is what the store holds under the
    key. *)
Theorem Set_encode_failure_writes_nothing k ctx :
  (forall (v : State) e, State_Marshal v = inr e -> SetState k ctx v = (ctx, Some e))
  /\ (forall (v : Params) e, Params_Marshal v = inr e -> SetParams k ctx v = (ctx, Some e))
  /\ (forall (v : State) bz, State_Marshal v = inl bz ->
        exists ctx', SetState k ctx v = (ctx', None)
                     /\ KVStore ctx' (storeKey k) !! KeyState = Some bz)
  /\ (forall (v : Params) bz, Params_Marshal v = inl bz ->
        exists ctx', SetParams k ctx v = (ctx', None)
                     /\ KVStore ctx' (storeKey k) !! KeyParams = Some bz).
Proof.
  repeat split.
  - intros v e Hm. unfold SetState. rewrite Hm. reflexivity.
  - intros v e Hm. unfold SetParams. rewrite Hm. reflexivity.
  - intros v bz Hm. destruct (SetState_GetState k ctx v bz Hm) as (ctx' & ? & ? & _). eauto.
  - intros v bz Hm. destruct (SetParams_GetParams k ctx v bz Hm) as (ctx' & ? & ? & _). eauto.
Qed.

(** *** The enabled height *)

Lemma GetEnabledHeight_present k ctx (bz : bytes) :
  KVStore ctx (storeKey k) !! KeyEnabledHeight = Some bz ->
  GetEnabledHeight k ctx = ((strconv.ParseInt bz).1, ErrNum <$> (strconv.ParseInt bz).2).
Proof.
  intros Hbz. unfold GetEnabledHeight. cbv zeta. rewrite Hbz.
  destruct (strconv.ParseInt bz). reflexivity.
Qed.

Lemma SetEnabledHeight_GetEnabledHeight k ctx (h : Z) :
  is_int64 h -> GetEnabledHeight k (SetEnabledHeight k ctx h) = (h, None).
Proof.
  intros Hh. unfold SetEnabledHeight. cbv zeta.
  rewrite (GetEnabledHeight_present _ _ _ (KVStore_Set_Get _ _ _ _)).
  rewrite (ParseInt_FormatInt h Hh). reflexivity.
Qed.

(** C5. [GetEnabledHeight] returns -1 and no error when the store has no
    bytes under the key; when it has, it returns the height and no error
    if the bytes are a decimal integer that fits 64 bits, and an error if
    they are not; and after [SetEnabledHeight] of 1000 it returns 1000. *)
Theorem GetEnabledHeight_spec k ctx :
  (KVStore ctx (storeKey k) !! KeyEnabledHeight = None ->
     GetEnabledHeight k ctx = (-1, None))
  /\ (forall bz : bytes, KVStore ctx (storeKey k) !! KeyEnabledHeight = Some bz ->
       match decimal_int64 bz with
       | Some h => GetEnabledHeight k ctx = (h, None)
       | None => exists r e, GetEnabledHeight k ctx = (r, Some e)
       end)
  /\ GetEnabledHeight k (SetEnabledHeight k ctx 1000) = (1000, None).
Proof.
  split; [|split].
  - intros Hnone. unfold GetEnabledHeight. cbv zeta. rewrite Hnone. reflexivity.
  - intros bz Hbz. rewrite (GetEnabledHeight_present k ctx bz Hbz).
    pose proof (ParseInt_spec bz) as Hp.
    destruct (decimal_int64 bz) as [h|].
    + rewrite Hp. reflexivity.
    + destruct Hp as (r & kd & ->). simpl. eauto.
  - apply SetEnabledHeight_GetEnabledHeight. unfold is_int64. lia.
Qed.

(** C10. [SetEnabledHeight] stores any 64-bit height, unchecked, and
    [GetEnabledHeight] reads it back; so after [SetEnabledHeight] of -1
    the store holds ["-1"] under the key, and [GetEnabledHeight] returns
    what it returns on a store without the key: -1 and no error. *)
Theorem SetEnabledHeight_minus_one k ctx :
  (forall h, is_int64 h ->
     KVStore (SetEnabledHeight k ctx h) (storeKey k) !! KeyEnabledHeight
     = Some (strconv.FormatInt h)
     /\ GetEnabledHeight k (SetEnabledHeight k ctx h) = (h, None))
  /\ KVStore (SetEnabledHeight k ctx (-1)) (storeKey k) !! KeyEnabledHeight = Some "-1"
  /\ (forall ctx0, KVStore ctx0 (storeKey k) !! KeyEnabledHeight = None ->
        GetEnabledHeight k (SetEnabledHeight k ctx (-1)) = GetEnabledHeight k ctx0).
Proof.
  split; [|split].
  - intros h Hh. split; [apply KVStore_Set_Get|].
    apply SetEnabledHeight_GetEnabledHeight, Hh.
  - apply KVStore_Set_Get.
  - intros ctx0 Hnone.
    rewrite SetEnabledHeight_GetEnabledHeight by (unfold is_int64; lia).
    unfold GetEnabledHeight. cbv zeta. rewrite Hnone. reflexivity.
Qed.

(** *** Absent records *)

(** C6. With no bytes under the key, [GetState] (and [GetParams]) returns
    what decoding the nil slice into a zero value reports: the decoded
    record and no error, or the zero value and the decode error. Absence
    is not looked at, and no default is put in its place. *)
Theorem Get_absent_is_decode_of_nil k ctx :
  (KVStore ctx (storeKey k) !! KeyState = None ->
     GetState k ctx =
     match State_Unmarshal State_zero_value None with
     | (_, Some e) => (State_zero_value, Some e)
     | (s, None) => (s, None)
     end)
  /\ (KVStore ctx (storeKey k) !! KeyParams = None ->
       GetParams k ctx =
       match Params_Unmarshal Params_zero_value None with
       | (_, Some e) => (Params_zero_value, Some e)
       | (s, None) => (s, None)
       end).
Proof.
  split; intros Hnone.
  - unfold GetState. cbv zeta. rewrite Hnone. reflexivity.
  - unfold GetParams. cbv zeta. rewrite Hnone. reflexivity.
Qed.

(** *** The resolver and the authority *)

(** C7. Without a resolver, [ResolveToDenom] returns the zero coin and
    [ErrResolverNotSet]; with one, what its [ConvertToDenom] returns for
    the same arguments. The resolver is the one [SetDenomResolver] set
    last. *)
Theorem ResolveToDenom_delegates k ctx (coin : DecCoin) (denom : string) :
  (resolver k = None ->
     ResolveToDenom k ctx coin denom = (DecCoin_zero_value, Some ErrResolverNotSet))
  /\ (forall r, resolver k = Some r -> ResolveToDenom k ctx coin denom = r ctx coin denom)
  /\ ResolveToDenom (SetDenomResolver k None) ctx coin denom
     = (DecCoin_zero_value, Some ErrResolverNotSet)
  /\ (forall r, ResolveToDenom (SetDenomResolver k (Some r)) ctx coin denom
                = r ctx coin denom).
Proof.
  unfold ResolveToDenom. repeat split.
  - intros ->. reflexivity.
  - intros r ->. reflexivity.
Qed.

(** C8. [NewKeeper] panics, and makes no keeper, when the address check
    rejects the authority; when the check accepts it, [NewKeeper] returns
    a keeper whose [GetAuthority] is the authority given. *)
Theorem NewKeeper_authority (c : BinaryCodec) (sk : string) (a : AccountKeeper)
        (r : option DenomResolver) (auth : string) :
  (forall e, AccAddressFromBech32 auth = inr e ->
     NewKeeper c sk a r auth = Panicked ("invalid authority address: " +:+ auth))
  /\ (forall addr, AccAddressFromBech32 auth = inl addr ->
       exists k, NewKeeper c sk a r auth = Returned k /\ GetAuthority k = auth).
Proof.
  unfold NewKeeper. split.
  - intros e ->. reflexivity.
  - intros addr ->. eexists. split; reflexivity.
Qed.

End KeeperProperties.

(** ** More on the enabled height *)

(** The error value of [ParseInt] once the sign is taken off: a syntax
    error comes with 0, a range error with the bound on the side of the
    sign. *)
Lemma ParseInt_tail_error (s0 s1 : string) (neg : bool) (r : Z) (e : strconv.NumError) :
  (let '(un, err) := strconv.ParseUint s1 in
   match err with
   | Some (strconv.mkNumError _ _ strconv.ErrSyntax) =>
       (0, Some (strconv.syntaxError strconv.fnParseInt s0))
   | _ =>
       if negb neg && (un >=? strconv.cutoffI)
       then (strconv.cutoffI - 1, Some (strconv.rangeError strconv.fnParseInt s0))
       else if neg && (un >? strconv.cutoffI)
       then (- strconv.cutoffI, Some (strconv.rangeError strconv.fnParseInt s0))
       else let n := int64 un in (if neg then int64 (- n) else n, None)
   end) = (r, Some e) ->
  (e = strconv.syntaxError strconv.fnParseInt s0 /\ r = 0)
  \/ (e = strconv.rangeError strconv.fnParseInt s0
      /\ r = if neg then - 2^63 else 2^63 - 1).
Proof.
  destruct (strconv.ParseUint s1) as [un [[f n [|]]|]]; unfold strconv.cutoffI.
  - intros [= <- <-]. left. auto.
  - destruct neg; simpl;
      repeat match goal with
             | |- context [if ?b then _ else _] => destruct b
             end; intros [= <- <-]; right; auto.
  - destruct neg; simpl;
      repeat match goal with
             | |- context [if ?b then _ else _] => destruct b
             end; intros [= <- <-]; right; auto.
Qed.

Lemma ParseInt_error_values (s : string) (r : Z) (e : strconv.NumError) :
  strconv.ParseInt s = (r, Some e) ->
  (e = strconv.syntaxError strconv.fnParseInt s /\ r = 0)
  \/ (e = strconv.rangeError strconv.fnParseInt s
      /\ r = if String.prefix "-" s then - 2^63 else 2^63 - 1).
Proof.
  destruct s as [|c0 rest].
  - intros [= <- <-]. left. auto.
  - unfold strconv.ParseInt.
    destruct (sign_cases c0) as [[-> Hb] | [[-> Hb] | (Hp & Hm & _)]].
    + change (strconv.byte "+" =? 43) with true. cbv iota.
      apply (ParseInt_tail_error (String "+" rest) rest false).
    + change (strconv.byte "-" =? 43) with false.
      change (strconv.byte "-" =? 45) with true. cbv iota.
      intros Hr.
      destruct (ParseInt_tail_error (String "-" rest) rest true r e Hr) as [?|[-> ->]];
        [left; assumption | right]. split; [reflexivity|].
      simpl. destruct rest; reflexivity.
    + destruct (Z.eqb_spec (strconv.byte c0) 43) as [|_]; [contradiction|].
      destruct (Z.eqb_spec (strconv.byte c0) 45) as [|_]; [contradiction|].
      intros Hr.
      destruct (ParseInt_tail_error _ _ false r e Hr) as [?|[-> ->]];
        [left; assumption | right]. split; [reflexivity|].
      change (String.prefix "-" (String c0 rest))
        with (if ascii_dec "-"%char c0 then String.prefix "" rest else false).
      destruct (ascii_dec "-" c0) as [<-|_]; [|reflexivity].
      exfalso. apply Hm. reflexivity.
Qed.

Lemma decimal_int64_range (s : string) (v : Z) : decimal_int64 s = Some v -> is_int64 v.
Proof.
  unfold decimal_int64, is_int64. destruct (decimal_integer s) as [x|]; simpl; [|discriminate].
  destruct (Z.leb_spec (- 2^63) x); simpl; [|discriminate].
  destruct (Z.ltb_spec x (2^63)); [|discriminate].
  intros [= <-]. lia.
Qed.

Section EnabledHeightProperties.
Context {E : Externals}.
Implicit Types (k : Keeper) (ctx : Context).

(** What [GetEnabledHeight] returns is always a 64-bit integer; and when it
    returns an error for the stored bytes, the integer beside it is 0 for a
    syntax error and, for a range error, the least 64-bit integer if the
    bytes start with a minus sign and the greatest otherwise. *)
Theorem GetEnabledHeight_error_values k ctx (v : Z) (err : option error) :
  GetEnabledHeight k ctx = (v, err) ->
  is_int64 v
  /\ (forall e, err = Some e ->
        exists bz, KVStore ctx (storeKey k) !! KeyEnabledHeight = Some bz
          /\ ((e = ErrNum (strconv.syntaxError "ParseInt" bz) /\ v = 0)
              \/ (e = ErrNum (strconv.rangeError "ParseInt" bz)
                  /\ v = if String.prefix "-" bz then - 2^63 else 2^63 - 1))).
Proof.
  unfold GetEnabledHeight. cbv zeta.
  destruct (KVStore ctx (storeKey k) !! KeyEnabledHeight) as [bz|].
  - destruct (strconv.ParseInt bz) as [r [ne|]] eqn:Hp; simpl; intros [= <- <-].
    + destruct (ParseInt_error_values bz r ne Hp) as [[-> ->] | [-> ->]].
      * split; [unfold is_int64; lia|]. intros e [= <-]. exists bz. split; [reflexivity|].
        left. auto.
      * split; [unfold is_int64; destruct (String.prefix "-" bz); lia|].
        intros e [= <-]. exists bz. split; [reflexivity|]. right. auto.
    + split; [|discriminate].
      pose proof (ParseInt_spec bz) as Hs.
      destruct (decimal_int64 bz) as [h|] eqn:Hd.
      * rewrite Hp in Hs. injection Hs as ->. eapply decimal_int64_range, Hd.
      * destruct Hs as (r' & kd & Hs). rewrite Hp in Hs. discriminate.
  - intros [= <- <-]. split; [unfold is_int64; lia | discriminate].
Qed.

End EnabledHeightProperties.

(** ** Writes and reads of the store *)
Section StoreProperties.
Context {E : Externals}.
Implicit Types (k : Keeper) (ctx : Context).

Lemma KVStore_Set_other ctx (sk key bz sk' key' : string) :
  (sk', key') <> (sk, key) ->
  KVStore (KVStore_Set ctx sk key bz) sk' !! key' = KVStore ctx sk' !! key'.
Proof.
  intros Hne. unfold KVStore_Set. cbn [KVStore].
  destruct (decide (sk' = sk)) as [->|]; [|reflexivity].
  apply lookup_insert_ne. congruence.
Qed.

Lemma KVStore_Set_other_store ctx (sk key bz sk' : string) :
  sk' <> sk -> KVStore (KVStore_Set ctx sk key bz) sk' = KVStore ctx sk'.
Proof.
  intros Hne. unfold KVStore_Set. cbn [KVStore]. rewrite decide_False by exact Hne.
  reflexivity.
Qed.

(** The getters read one key of the keeper's store and nothing else. *)
Lemma GetState_ext k ctx ctx' :
  KVStore ctx' (storeKey k) !! KeyState = KVStore ctx (storeKey k) !! KeyState ->
  GetState k ctx' = GetState k ctx.
Proof. intros Heq. unfold GetState. cbv zeta. rewrite Heq. reflexivity. Qed.

Lemma GetParams_ext k ctx ctx' :
  KVStore ctx' (storeKey k) !! KeyParams = KVStore ctx (storeKey k) !! KeyParams ->
  GetParams k ctx' = GetParams k ctx.
Proof. intros Heq. unfold GetParams. cbv zeta. rewrite Heq. reflexivity. Qed.

Lemma GetEnabledHeight_ext k ctx ctx' :
  KVStore ctx' (storeKey k) !! KeyEnabledHeight
  = KVStore ctx (storeKey k) !! KeyEnabledHeight ->
  GetEnabledHeight k ctx' = GetEnabledHeight k ctx.
Proof. intros Heq. unfold GetEnabledHeight. cbv zeta. rewrite Heq. reflexivity. Qed.

(** What a setter leaves of the store: everything but its key. *)
Lemma SetState_other k ctx (v : State) (sk' key' : string) :
  (sk', key') <> (storeKey k, KeyState) ->
  KVStore (SetState k ctx v).1 sk' !! key' = KVStore ctx sk' !! key'.
Proof.
  intros Hne. unfold SetState. destruct (State_Marshal v); [|reflexivity].
  apply KVStore_Set_other, Hne.
Qed.

Lemma SetParams_other k ctx (v : Params) (sk' key' : string) :
  (sk', key') <> (storeKey k, KeyParams) ->
  KVStore (SetParams k ctx v).1 sk' !! key' = KVStore ctx sk' !! key'.
Proof.
  intros Hne. unfold SetParams. destruct (Params_Marshal v); [|reflexivity].
  apply KVStore_Set_other, Hne.
Qed.

Lemma SetEnabledHeight_other k ctx (h : Z) (sk' key' : string) :
  (sk', key') <> (storeKey k, KeyEnabledHeight) ->
  KVStore (SetEnabledHeight k ctx h) sk' !! key' = KVStore ctx sk' !! key'.
Proof. intros Hne. apply KVStore_Set_other, Hne. Qed.

(** When the three keys differ, no setter changes what the getters of the
    other two records return; and no setter writes to a store other than
    the keeper's. *)
Theorem Set_independent k ctx :
  KeyState <> KeyParams ->
  KeyState <> KeyEnabledHeight ->
  KeyParams <> KeyEnabledHeight ->
  (forall v : State,
      GetParams k (SetState k ctx v).1 = GetParams k ctx
      /\ GetEnabledHeight k (SetState k ctx v).1 = GetEnabledHeight k ctx)
  /\ (forall v : Params,
      GetState k (SetParams k ctx v).1 = GetState k ctx
      /\ GetEnabledHeight k (SetParams k ctx v).1 = GetEnabledHeight k ctx)
  /\ (forall h : Z,
      GetState k (SetEnabledHeight k ctx h) = GetState k ctx
      /\ GetParams k (SetEnabledHeight k ctx h) = GetParams k ctx)
  /\ (forall sk' key' (s : State) (p : Params) (h : Z),
      sk' <> storeKey k ->
      KVStore (SetState k ctx s).1 sk' !! key' = KVStore ctx sk' !! key'
      /\ KVStore (SetParams k ctx p).1 sk' !! key' = KVStore ctx sk' !! key'
      /\ KVStore (SetEnabledHeight k ctx h) sk' !! key' = KVStore ctx sk' !! key').
Proof.
  intros Hsp Hse Hpe. repeat split.
  - apply GetParams_ext, SetState_other. congruence.
  - apply GetEnabledHeight_ext, SetState_other. congruence.
  - apply GetState_ext, SetParams_other. congruence.
  - apply GetEnabledHeight_ext, SetParams_other. congruence.
  - apply GetState_ext, SetEnabledHeight_other. congruence.
  - apply GetParams_ext, SetEnabledHeight_other. congruence.
  - apply SetState_other. congruence.
  - apply SetParams_other. congruence.
  - apply SetEnabledHeight_other. congruence.
Qed.

(** Of two writes of a record the later one is the one read, when its
    encoding succeeds; when it fails, the earlier one still is. The later
    height is always the one read. *)
Theorem Set_last_write_wins k ctx :
  (forall (v1 v2 : State),
      GetState k (SetState k (SetState k ctx v1).1 v2).1
      = match State_Marshal v2 with
        | inl _ => GetState k (SetState k ctx v2).1
        | inr _ => GetState k (SetState k ctx v1).1
        end)
  /\ (forall (v1 v2 : Params),
      GetParams k (SetParams k (SetParams k ctx v1).1 v2).1
      = match Params_Marshal v2 with
        | inl _ => GetParams k (SetParams k ctx v2).1
        | inr _ => GetParams k (SetParams k ctx v1).1
        end)
  /\ (forall h1 h2 : Z,
      GetEnabledHeight k (SetEnabledHeight k (SetEnabledHeight k ctx h1) h2)
      = GetEnabledHeight k (SetEnabledHeight k ctx h2)).
Proof.
  split; [|split].
  - intros v1 v2. destruct (State_Marshal v2) as [bz|e] eqn:Hm.
    + apply GetState_ext. unfold SetState at 1 3. rewrite Hm. cbn [fst].
      rewrite !KVStore_Set_Get. reflexivity.
    + unfold SetState at 1. rewrite Hm. reflexivity.
  - intros v1 v2. destruct (Params_Marshal v2) as [bz|e] eqn:Hm.
    + apply GetParams_ext. unfold SetParams at 1 3. rewrite Hm. cbn [fst].
      rewrite !KVStore_Set_Get. reflexivity.
    + unfold SetParams at 1. rewrite Hm. reflexivity.
  - intros h1 h2. apply GetEnabledHeight_ext. unfold SetEnabledHeight. cbv zeta.
    rewrite !KVStore_Set_Get. reflexivity.
Qed.

End StoreProperties.

(** ** Decoding over what the receiver holds *)



Lemma fold_left_proj_keep {M F V : Type} (set : M -> F -> M) (proj : M -> V)
      (upd : F -> option V) :
  (forall m f, proj (set m f) = default (proj m) (upd f)) ->
  forall fs, (forall f, f ∈ fs -> upd f = None) ->
  forall m, proj (fold_left set fs m) = proj m.
Proof.
  intros Hset fs. induction fs as [|f fs IH]; intros Hnone m; simpl; [reflexivity|].
  rewrite IH by (intros g Hg; apply Hnone; right; exact Hg).
  rewrite Hset, (Hnone f) by left. reflexivity.
Qed.

Lemma State_set_BaseGasPrice (m : State) (f : StateField) :
  BaseGasPrice (State_set m f) = default (BaseGasPrice m) (sets_BaseGasPrice f).
Proof. destruct f; reflexivity. Qed.

Lemma State_set_LearningRate (m : State) (f : StateField) :
  LearningRate (State_set m f) = default (LearningRate m) (sets_LearningRate f).
Proof. destruct f; reflexivity. Qed.





(** ** More on the pooled fast paths *)
Section FastPathProperties.
Context {E : Externals}.
Implicit Types (k : Keeper) (ctx : Context) (choice : option nat).

(** The instances of a pool after [Get] and a write through the pointer
    [Get] gave: every other pointer reads what it read before. *)
Lemma Get_store_obj_others {T : Type} (p p1 : MessagePool T) choice (a : nat) (r : PoolRef)
      (v : T) (b : nat) :
  MessagePool_Get choice p = (mkPooledMessage (Some a) (Some r), p1) ->
  b <> a ->
  objs (store_obj a v p1) !! b = objs p !! b.
Proof.
  intros Hget Hb. cbn [store_obj objs]. rewrite list_lookup_insert_ne by congruence.
  destruct (MessagePool_Get_cases p choice)
    as (o & p' & Hget' & [[Hobjs _] | (Ho & Hobjs & _)]);
    rewrite Hget in Hget'; injection Hget' as <- -> <-.
  - rewrite Hobjs. reflexivity.
  - rewrite Hobjs. injection Ho as ->.
    destruct (decide (b < length (objs p))%nat) as [Hlt|Hge].
    + apply lookup_app_l, Hlt.
    + rewrite !lookup_ge_None_2; [reflexivity | lia |].
      rewrite length_app. simpl. lia.
Qed.

(** A pooled read leaves the store as it is, releases the store handle once
    if it is a pooled one and never otherwise, and changes nothing of the
    keeper but the pool it reads through. *)
Theorem Fast_reads_leave_store choice k ctx :
  pool_wf (statePool k) ->
  pool_wf (paramsPool k) ->
  (exists h err k' ctx',
      GetStateFast choice k ctx = Some (h, err, k', ctx')
      /\ KVStore ctx' = KVStore ctx
      /\ pooledKVStore ctx' = pooledKVStore ctx
      /\ storeReleases ctx' = (storeReleases ctx + if pooledKVStore ctx then 1 else 0)%nat
      /\ paramsPool k' = paramsPool k
      /\ (storeKey k', resolver k', authority k') = (storeKey k, resolver k, authority k))
  /\ (exists h err k' ctx',
      GetParamsFast choice k ctx = Some (h, err, k', ctx')
      /\ KVStore ctx' = KVStore ctx
      /\ pooledKVStore ctx' = pooledKVStore ctx
      /\ storeReleases ctx' = (storeReleases ctx + if pooledKVStore ctx then 1 else 0)%nat
      /\ statePool k' = statePool k
      /\ (storeKey k', resolver k', authority k') = (storeKey k, resolver k, authority k)).
Proof.
  intros HwfS HwfP.
  assert (Hctx : KVStore (deferred_Release ctx) = KVStore ctx
                 /\ pooledKVStore (deferred_Release ctx) = pooledKVStore ctx
                 /\ storeReleases (deferred_Release ctx)
                    = (storeReleases ctx + if pooledKVStore ctx then 1 else 0)%nat).
  { unfold deferred_Release. destruct (pooledKVStore ctx) eqn:Hp; cbn; rewrite ?Hp;
      repeat split; lia. }
  destruct Hctx as (H1 & H2 & H3).
  split.
  - destruct (GetStateFast_run choice k ctx HwfS) as (a & v & p1 & _ & _ & _ & _ & ->).
    cbv zeta. destruct (State_scan (KVStore ctx (storeKey k) !! KeyState)).2;
      eexists _, _, _, _; (split; [reflexivity|]); repeat split; assumption.
  - destruct (GetParamsFast_run choice k ctx HwfP) as (a & v & p1 & _ & _ & _ & _ & ->).
    cbv zeta. destruct (Params_scan (KVStore ctx (storeKey k) !! KeyParams)).2;
      eexists _, _, _, _; (split; [reflexivity|]); repeat split; assumption.
Qed.

(** A pooled read writes to one instance only, the one [Get] gave it: every
    other instance of the pool, among them those out with other callers, is
    what it was. *)
Theorem Fast_reads_touch_one_instance choice k ctx :
  pool_wf (statePool k) ->
  pool_wf (paramsPool k) ->
  (exists a h err k' ctx',
      GetStateFast choice k ctx = Some (h, err, k', ctx')
      /\ Value (MessagePool_Get choice (statePool k)).1 = Some a
      /\ forall b, b <> a -> objs (statePool k') !! b = objs (statePool k) !! b)
  /\ (exists a h err k' ctx',
      GetParamsFast choice k ctx = Some (h, err, k', ctx')
      /\ Value (MessagePool_Get choice (paramsPool k)).1 = Some a
      /\ forall b, b <> a -> objs (paramsPool k') !! b = objs (paramsPool k) !! b).
Proof.
  intros HwfS HwfP. split.
  - destruct (GetStateFast_run choice k ctx HwfS) as (a & v & p1 & Hget & _ & _ & _ & ->).
    cbv zeta. rewrite Hget. exists a.
    destruct (State_scan (KVStore ctx (storeKey k) !! KeyState)).2;
      eexists _, _, _, _; (split; [reflexivity|]); (split; [reflexivity|]);
      intros b Hb; cbn [statePool with_statePool MessagePool_put objs];
      eapply Get_store_obj_others; eassumption.
  - destruct (GetParamsFast_run choice k ctx HwfP) as (a & v & p1 & Hget & _ & _ & _ & ->).
    cbv zeta. rewrite Hget. exists a.
    destruct (Params_scan (KVStore ctx (storeKey k) !! KeyParams)).2;
      eexists _, _, _, _; (split; [reflexivity|]); (split; [reflexivity|]);
      intros b Hb; cbn [paramsPool with_paramsPool MessagePool_put objs];
      eapply Get_store_obj_others; eassumption.
Qed.



(** A decimal the stored bytes do not name is, after a successful pooled
    read of the state, the decimal the instance held when [Get] gave it:
    the one of its previous user, or the factory's. *)
Theorem GetStateFast_keeps_unset_decimals choice k ctx :
  pool_wf (statePool k) ->
  (State_scan (KVStore ctx (storeKey k) !! KeyState)).2 = None ->
  exists a v v' k' ctx',
    GetStateFast choice k ctx
    = Some ((MessagePool_Get choice (statePool k)).1, None, k', ctx')
    /\ Value (MessagePool_Get choice (statePool k)).1 = Some a
    /\ objs (MessagePool_Get choice (statePool k)).2 !! a = Some v
    /\ objs (statePool k') !! a = Some v'
    /\ (~ has_BaseGasPrice (State_scan (KVStore ctx (storeKey k) !! KeyState)).1 ->
        BaseGasPrice v' = BaseGasPrice v)
    /\ (~ has_LearningRate (State_scan (KVStore ctx (storeKey k) !! KeyState)).1 ->
        LearningRate v' = LearningRate v).
Proof.
  intros Hwf Hok.
  destruct (GetStateFast_run choice k ctx Hwf) as (a & v & p1 & Hget & Hv & _ & _ & Hrun).
  cbv zeta in Hrun. rewrite Hok in Hrun.
  eexists a, v, _, _, _. rewrite Hget. split; [exact Hrun|]. split; [reflexivity|].
  split; [exact Hv|].
  cbn [statePool with_statePool store_obj objs].
  split; [apply list_lookup_insert_eq; eapply lookup_lt_Some, Hv|].
  unfold State_Unmarshal.
  destruct (State_scan (KVStore ctx (storeKey k) !! KeyState)) as [fs err]. cbn [fst].
  split; intros Hno.
  - rewrite (fold_left_proj_keep _ _ _ State_set_BaseGasPrice); [reflexivity|].
    intros [d| |] Hin; try reflexivity. exfalso. apply Hno. exists d. exact Hin.
  - rewrite (fold_left_proj_keep _ _ _ State_set_LearningRate); [reflexivity|].
    intros [|d|] Hin; try reflexivity. exfalso. apply Hno. exists d. exact Hin.
Qed.

(** The first pooled reads through a new keeper, of bytes that decode to no
    field at all: the instance is the factory's, with every decimal of the
    params one, and with the decimals of the state zero and its window
    empty; the plain reads of the same bytes return the zero values. *)
Theorem NewKeeper_first_fast_reads (c : BinaryCodec) (sk : string) (a : AccountKeeper)
        (r : option DenomResolver) (auth : string) k choice ctx :
  NewKeeper c sk a r auth = Returned k ->
  (Params_scan (KVStore ctx sk !! KeyParams) = ([], None) ->
     exists k' ctx',
       GetParamsFast choice k ctx
       = Some (mkPooledMessage (Some 0%nat) (Some 1%positive), None, k', ctx')
       /\ objs (paramsPool k') !! 0%nat = Some Params_factory
       /\ GetParams k ctx = (Params_zero_value, None))
  /\ (State_scan (KVStore ctx sk !! KeyState) = ([], None) ->
     exists k' ctx',
       GetStateFast choice k ctx
       = Some (mkPooledMessage (Some 0%nat) (Some 2%positive), None, k', ctx')
       /\ objs (statePool k') !! 0%nat = Some State_factory
       /\ GetState k ctx = (State_zero_value, None)).
Proof.
  unfold NewKeeper. destruct (AccAddressFromBech32 auth); [|discriminate].
  intros [= <-]. split; intros Hscan.
  - unfold GetParamsFast, GetParams, Params_Unmarshal. cbn [storeKey paramsPool].
    cbv zeta. rewrite Hscan.
    destruct choice as [i|]; eexists _, _; repeat split; reflexivity.
  - unfold GetStateFast, GetState, State_Unmarshal. cbn [storeKey statePool].
    cbv zeta. rewrite Hscan.
    destruct choice as [i|]; eexists _, _; repeat split; reflexivity.
Qed.

End FastPathProperties.

(** ** The pool and the keeper in use *)
Section PoolUseProperties.
Context {T : Type}.
Implicit Types (p : MessagePool T).

Lemma pool_inv_store_obj p (live : list PooledMessage) (a : nat) (v : T) :
  pool_inv (p, live) -> pool_inv (store_obj a v p, live).
Proof.
  unfold pool_inv, store_obj. cbn [fst snd objs free]. rewrite length_insert. trivial.
Qed.

Lemma pool_inv_wf p (live : list PooledMessage) : pool_inv (p, live) -> pool_wf p.
Proof.
  intros (_ & Hall & _). cbn [fst snd] in Hall. apply Forall_app in Hall as [Hfree _].
  exact Hfree.
Qed.

Lemma pool_inv_no_alias (st : MessagePool T * list PooledMessage) :
  pool_inv st ->
  NoDup (Value <$> st.2)
  /\ forall h, h ∈ st.2 ->
       exists a, Value h = Some a /\ is_Some (objs st.1 !! a) /\ Some a ∉ free st.1.
Proof.
  intros (Hnd & Hall & _ & _).
  apply NoDup_app in Hnd as (_ & Hdisj & Hnd). split; [exact Hnd|].
  intros h Hh.
  assert (Hin : Value h ∈ Value <$> st.2) by (apply list_elem_of_fmap_2, Hh).
  rewrite Forall_forall in Hall.
  destruct (Hall (Value h)) as (a & Ha & Hlt); [apply elem_of_app; auto|].
  exists a. split; [exact Ha|]. split; [apply lookup_lt_is_Some_2, Hlt|].
  rewrite <- Ha. intros Hfree. exact (Hdisj _ Hfree Hin).
Qed.

Lemma pool_inv_handle p (live : list PooledMessage) (i : nat) (h : PooledMessage) :
  pool_inv (p, live) -> live !! i = Some h ->
  is_Some (pool h) /\ exists a : nat, Value h = Some a.
Proof.
  intros (_ & Hall & _ & Hpool) Hi. cbn [fst snd] in *.
  apply list_elem_of_lookup_2 in Hi. split.
  - rewrite Forall_forall in Hpool. apply Hpool, Hi.
  - rewrite Forall_forall in Hall.
    destruct (Hall (Value h)) as (a & Ha & _); [|eauto].
    apply elem_of_app. right. apply list_elem_of_fmap_2, Hi.
Qed.

(** Nothing in [Release] tells a second release of a handle from the
    first: after two, the pool holds the pointer twice, and two calls of
    [Get] that the runtime serves from the top of the pool return two
    handles on the same instance. *)
Theorem double_Release_aliases p (h : PooledMessage) :
  is_Some (pool h) ->
  exists p1 p2,
    Release h p = Some p1
    /\ Release h p1 = Some p2
    /\ (MessagePool_Get (Some 0%nat) p2).1 = mkPooledMessage (Value h) (Some (self p))
    /\ (MessagePool_Get (Some 0%nat) (MessagePool_Get (Some 0%nat) p2).2).1
       = mkPooledMessage (Value h) (Some (self p))
    /\ free (MessagePool_Get (Some 0%nat) (MessagePool_Get (Some 0%nat) p2).2).2 = free p.
Proof.
  intros [r Hr]. unfold Release. rewrite Hr. eexists _, _.
  split; [reflexivity|]. split; [reflexivity|]. repeat split.
Qed.

End PoolUseProperties.

Section KeeperRunProperties.
Context {E : Externals}.
Implicit Types (k : Keeper) (ctx : Context) (choice : option nat) (w : World).

Lemma GetStateFast_inv choice k ctx (live : list PooledMessage) :
  pool_inv (statePool k, live) ->
  exists h err k' ctx',
    GetStateFast choice k ctx = Some (h, err, k', ctx')
    /\ pool_inv (statePool k', match err with None => h :: live | Some _ => live end)
    /\ paramsPool k' = paramsPool k
    /\ authority k' = authority k.
Proof.
  intros Hinv.
  destruct (GetStateFast_run choice k ctx (pool_inv_wf _ _ Hinv))
    as (a & v & p1 & Hget & _ & _ & _ & ->).
  pose proof (pool_inv_op (statePool k, live) (OpGet choice) Hinv) as Hinv1.
  cbn [pool_op fst snd] in Hinv1. rewrite Hget in Hinv1.
  cbv zeta.
  destruct (State_scan (KVStore ctx (storeKey k) !! KeyState)).2;
    eexists _, _, _, _; (split; [reflexivity|]);
    (split; [|split; reflexivity]); cbn [statePool with_statePool].
  - match goal with
    | |- context [store_obj a ?v1 p1] =>
        pose proof (pool_inv_op _ (OpRelease 0) (pool_inv_store_obj _ _ a v1 Hinv1)) as Hinv2
    end.
    exact Hinv2.
  - apply pool_inv_store_obj, Hinv1.
Qed.

Lemma GetParamsFast_inv choice k ctx (live : list PooledMessage) :
  pool_inv (paramsPool k, live) ->
  exists h err k' ctx',
    GetParamsFast choice k ctx = Some (h, err, k', ctx')
    /\ pool_inv (paramsPool k', match err with None => h :: live | Some _ => live end)
    /\ statePool k' = statePool k
    /\ authority k' = authority k.
Proof.
  intros Hinv.
  destruct (GetParamsFast_run choice k ctx (pool_inv_wf _ _ Hinv))
    as (a & v & p1 & Hget & _ & _ & _ & ->).
  pose proof (pool_inv_op (paramsPool k, live) (OpGet choice) Hinv) as Hinv1.
  cbn [pool_op fst snd] in Hinv1. rewrite Hget in Hinv1.
  cbv zeta.
  destruct (Params_scan (KVStore ctx (storeKey k) !! KeyParams)).2;
    eexists _, _, _, _; (split; [reflexivity|]);
    (split; [|split; reflexivity]); cbn [paramsPool with_paramsPool].
  - match goal with
    | |- context [store_obj a ?v1 p1] =>
        pose proof (pool_inv_op _ (OpRelease 0) (pool_inv_store_obj _ _ a v1 Hinv1)) as Hinv2
    end.
    exact Hinv2.
  - apply pool_inv_store_obj, Hinv1.
Qed.

(** No step faults on a keeper in use, and every step keeps it so. *)
Lemma keeper_op_inv (auth : string) w (op : KeeperOp) :
  keeper_inv auth w -> exists w', keeper_op w op = Some w' /\ keeper_inv auth w'.
Proof.
  destruct w as [k ctx ss ps]. unfold keeper_inv. cbn [keeper stateHandles paramsHandles].
  intros (HS & HP & Ha).
  destruct op as [c|c|i|i|i v|i v|v|v|h|r]; cbn [keeper_op keeper context stateHandles paramsHandles].
  - destruct (GetStateFast_inv c k ctx ss HS) as (h & err & k' & ctx' & -> & HS' & HP' & Ha').
    destruct err; eexists; (split; [reflexivity|]);
      cbn [keeper stateHandles paramsHandles]; rewrite HP', Ha'; auto.
  - destruct (GetParamsFast_inv c k ctx ps HP) as (h & err & k' & ctx' & -> & HP' & HS' & Ha').
    destruct err; eexists; (split; [reflexivity|]);
      cbn [keeper stateHandles paramsHandles]; rewrite HS', Ha'; auto.
  - destruct (ss !! i) as [h|] eqn:Hi; [|eexists; split; [reflexivity | auto]].
    destruct (pool_inv_handle _ _ _ _ HS Hi) as [[r Hr] _].
    pose proof (pool_inv_op _ (OpRelease i) HS) as HS'. cbn [pool_op fst snd] in HS'.
    rewrite Hi in HS'. unfold Release in *. rewrite Hr in *. cbn in HS' |- *.
    eexists. split; [reflexivity|]. cbn [keeper stateHandles paramsHandles statePool
      paramsPool with_statePool authority]. auto.
  - destruct (ps !! i) as [h|] eqn:Hi; [|eexists; split; [reflexivity | auto]].
    destruct (pool_inv_handle _ _ _ _ HP Hi) as [[r Hr] _].
    pose proof (pool_inv_op _ (OpRelease i) HP) as HP'. cbn [pool_op fst snd] in HP'.
    rewrite Hi in HP'. unfold Release in *. rewrite Hr in *. cbn in HP' |- *.
    eexists. split; [reflexivity|]. cbn [keeper stateHandles paramsHandles statePool
      paramsPool with_paramsPool authority]. auto.
  - destruct (ss !! i) as [h|] eqn:Hi; [|eexists; split; [reflexivity | auto]].
    destruct (pool_inv_handle _ _ _ _ HS Hi) as [_ [a ->]]. cbn.
    eexists. split; [reflexivity|]. cbn [keeper stateHandles paramsHandles statePool
      paramsPool with_statePool authority].
    split; [apply pool_inv_store_obj, HS | auto].
  - destruct (ps !! i) as [h|] eqn:Hi; [|eexists; split; [reflexivity | auto]].
    destruct (pool_inv_handle _ _ _ _ HP Hi) as [_ [a ->]]. cbn.
    eexists. split; [reflexivity|]. cbn [keeper stateHandles paramsHandles statePool
      paramsPool with_paramsPool authority].
    split; [exact HS | split; [apply pool_inv_store_obj, HP | exact Ha]].
  - eexists. split; [reflexivity | auto].
  - eexists. split; [reflexivity | auto].
  - eexists. split; [reflexivity | auto].
  - eexists. split; [reflexivity | auto].
Qed.

Lemma keeper_run_inv (auth : string) (ops : list KeeperOp) : forall w,
  keeper_inv auth w -> exists w', keeper_run w ops = Some w' /\ keeper_inv auth w'.
Proof.
  induction ops as [|op ops IH]; intros w Hw; [exists w; split; [reflexivity | exact Hw]|].
  destruct (keeper_op_inv auth w op Hw) as (w1 & Hop & Hw1).
  destruct (IH w1 Hw1) as (w' & Hrun & Hw').
  exists w'. split; [|exact Hw']. cbn [keeper_run]. rewrite Hop. exact Hrun.
Qed.

(** A keeper made by [NewKeeper], in any context, used in any way: however
    pooled reads, releases of handles held, writes through handles held and
    calls of the setters follow each other, and whatever the runtime
    chooses at each [Get], no step dereferences a nil pointer; afterwards no
    two handles held point to the same instance, none points to an instance
    that is also in its pool, and [GetAuthority] still returns the authority
    given to [NewKeeper]. *)
Theorem keeper_run_safe (c : BinaryCodec) (sk : string) (a : AccountKeeper)
        (r : option DenomResolver) (auth : string) k0 ctx0 (ops : list KeeperOp) :
  NewKeeper c sk a r auth = Returned k0 ->
  exists w,
    keeper_run (mkWorld k0 ctx0 [] []) ops = Some w
    /\ GetAuthority (keeper w) = auth
    /\ NoDup (Value <$> stateHandles w)
    /\ NoDup (Value <$> paramsHandles w)
    /\ (forall h, h ∈ stateHandles w ->
          exists a, Value h = Some a
                    /\ is_Some (objs (statePool (keeper w)) !! a)
                    /\ Some a ∉ free (statePool (keeper w)))
    /\ (forall h, h ∈ paramsHandles w ->
          exists a, Value h = Some a
                    /\ is_Some (objs (paramsPool (keeper w)) !! a)
                    /\ Some a ∉ free (paramsPool (keeper w))).
Proof.
  unfold NewKeeper. destruct (AccAddressFromBech32 auth); [|discriminate].
  intros [= <-].
  match goal with
  | |- context [mkWorld ?k _ _ _] =>
      destruct (keeper_run_inv auth ops (mkWorld k ctx0 [] [])) as (w & Hrun & HS & HP & Ha)
  end.
  { unfold keeper_inv, pool_inv, NewMessagePool. cbn.
    repeat split; try constructor. }
  exists w. split; [exact Hrun|]. split; [exact Ha|].
  destruct (pool_inv_no_alias _ HS) as [HndS HallS].
  destruct (pool_inv_no_alias _ HP) as [HndP HallP].
  auto.
Qed.

End KeeperRunProperties.

(** ** The properties at work on the instance [Demo] *)

#[local] Existing Instance Demo.externals.

Lemma GetStateFast_Window_is_decoded_witness :
  exists a v k' ctx',
    GetStateFast (Some 0%nat) Demo.keeper1 Demo.ctx1
    = Some ((MessagePool_Get (Some 0%nat) (statePool Demo.keeper1)).1, None, k', ctx')
    /\ Value (MessagePool_Get (Some 0%nat) (statePool Demo.keeper1)).1 = Some a
    /\ objs (statePool k') !! a = Some v
    /\ Window v = decoded_Window (KVStore Demo.ctx1 (storeKey Demo.keeper1) !! KeyState).
Proof.
  apply (GetStateFast_Window_is_decoded (E := Demo.externals)).
  - constructor; [exists 0%nat; split; [reflexivity | simpl; lia] | constructor].
  - vm_compute. reflexivity.
Defined.

Lemma Fast_decode_failure_releases_witness :
  exists k' ctx',
    GetStateFast (Some 0%nat) Demo.keeper1 Demo.ctx_bad
    = Some (PooledMessage_zero_value, Some (ErrOther "unexpected EOF"), k', ctx')
    /\ free (statePool k')
       = Value (MessagePool_Get (Some 0%nat) (statePool Demo.keeper1)).1
         :: free (MessagePool_Get (Some 0%nat) (statePool Demo.keeper1)).2
    /\ checked_out (statePool k') = checked_out (statePool Demo.keeper1)
    /\ paramsPool k' = paramsPool Demo.keeper1.
Proof.
  apply (proj1 (Fast_decode_failure_releases (E := Demo.externals)
                  (Some 0%nat) Demo.keeper1 Demo.ctx_bad
                  ltac:(constructor; [exists 0%nat; split; [reflexivity | simpl; lia]
                                     | constructor])
                  ltac:(constructor))).
  exists State_zero_value. vm_compute. reflexivity.
Defined.


Lemma Set_encode_failure_writes_nothing_witness :
  SetState Demo.keeper0 Demo.ctx1 State_zero_value
  = (Demo.ctx1, Some (ErrOther "value cannot be encoded")).
Proof.
  apply (proj1 (Set_encode_failure_writes_nothing (E := Demo.externals)
                  Demo.keeper0 Demo.ctx1)).
  vm_compute. reflexivity.
Defined.

Lemma GetEnabledHeight_spec_witness :
  GetEnabledHeight Demo.keeper0 Demo.ctx_height = (42, None).
Proof.
  apply (proj1 (proj2 (GetEnabledHeight_spec (E := Demo.externals)
                         Demo.keeper0 Demo.ctx_height)) "+42").
  vm_compute. reflexivity.
Defined.

Lemma SetEnabledHeight_minus_one_witness :
  GetEnabledHeight Demo.keeper0 (SetEnabledHeight Demo.keeper0 Demo.ctx1 (-1))
  = GetEnabledHeight Demo.keeper0 Demo.ctx0.
Proof.
  apply (proj2 (proj2 (SetEnabledHeight_minus_one (E := Demo.externals)
                         Demo.keeper0 Demo.ctx1))).
  vm_compute. reflexivity.
Defined.

Lemma Get_absent_is_decode_of_nil_witness :
  GetState Demo.keeper0 Demo.ctx0 = (State_zero_value, None).
Proof.
  apply (proj1 (Get_absent_is_decode_of_nil (E := Demo.externals)
                  Demo.keeper0 Demo.ctx0)).
  vm_compute. reflexivity.
Defined.

Lemma ResolveToDenom_delegates_witness :
  ResolveToDenom Demo.keeper0 Demo.ctx0 (mkDecCoin "uatom" LegacyOneDec) "stake"
  = (DecCoin_zero_value, Some ErrResolverNotSet).
Proof.
  apply (proj1 (ResolveToDenom_delegates (E := Demo.externals)
                  Demo.keeper0 Demo.ctx0 (mkDecCoin "uatom" LegacyOneDec) "stake")).
  reflexivity.
Defined.

Lemma NewKeeper_authority_witness :
  NewKeeper (E := Demo.externals) tt "feemarket" tt None "gov"
  = Panicked "invalid authority address: gov".
Proof.
  apply (proj1 (NewKeeper_authority (E := Demo.externals) tt "feemarket" tt None "gov")
               (ErrOther "decoding bech32 failed")).
  reflexivity.
Defined.

Lemma GetStateFast_total_witness :
  exists h err k' ctx',
    GetStateFast None Demo.keeper1 Demo.ctx_bad = Some (h, err, k', ctx')
    /\ pool_wf (statePool k').
Proof.
  apply (GetStateFast_total (E := Demo.externals)).
  constructor; [exists 0%nat; split; [reflexivity | simpl; lia] | constructor].
Defined.

Lemma GetParamsFast_total_witness :
  exists h err k' ctx',
    GetParamsFast (Some 3%nat) Demo.keeper1 Demo.ctx_bad = Some (h, err, k', ctx')
    /\ pool_wf (paramsPool k').
Proof.
  apply (GetParamsFast_total (E := Demo.externals)). constructor.
Defined.

Lemma GetEnabledHeight_error_values_witness :
  is_int64 (- 2^63)
  /\ (forall e,
        Some (ErrNum (strconv.rangeError "ParseInt" "-99999999999999999999")) = Some e ->
        exists bz,
          KVStore Demo.ctx_huge (storeKey Demo.keeper0) !! KeyEnabledHeight = Some bz
          /\ ((e = ErrNum (strconv.syntaxError "ParseInt" bz) /\ - 2^63 = 0)
              \/ (e = ErrNum (strconv.rangeError "ParseInt" bz)
                  /\ - 2^63 = if String.prefix "-" bz then - 2^63 else 2^63 - 1))).
Proof.
  apply (GetEnabledHeight_error_values (E := Demo.externals) Demo.keeper0 Demo.ctx_huge).
  vm_compute. reflexivity.
Defined.

Lemma Set_independent_witness :
  GetParams Demo.keeper0 (SetState Demo.keeper0 Demo.ctx2 Demo.state1).1
  = GetParams Demo.keeper0 Demo.ctx2
  /\ GetEnabledHeight Demo.keeper0 (SetState Demo.keeper0 Demo.ctx2 Demo.state1).1
     = GetEnabledHeight Demo.keeper0 Demo.ctx2.
Proof.
  apply (proj1 (Set_independent (E := Demo.externals) Demo.keeper0 Demo.ctx2
                  ltac:(discriminate) ltac:(discriminate) ltac:(discriminate))).
Defined.

Lemma Fast_reads_leave_store_witness :
  exists h err k' ctx',
    GetStateFast (Some 0%nat) Demo.keeper1 Demo.ctx1 = Some (h, err, k', ctx')
    /\ KVStore ctx' = KVStore Demo.ctx1
    /\ pooledKVStore ctx' = pooledKVStore Demo.ctx1
    /\ storeReleases ctx'
       = (storeReleases Demo.ctx1 + if pooledKVStore Demo.ctx1 then 1 else 0)%nat
    /\ paramsPool k' = paramsPool Demo.keeper1
    /\ (storeKey k', resolver k', authority k')
       = (storeKey Demo.keeper1, resolver Demo.keeper1, authority Demo.keeper1).
Proof.
  apply (proj1 (Fast_reads_leave_store (E := Demo.externals)
                  (Some 0%nat) Demo.keeper1 Demo.ctx1
                  ltac:(constructor; [exists 0%nat; split; [reflexivity | simpl; lia]
                                     | constructor])
                  ltac:(constructor))).
Defined.

Lemma Fast_reads_touch_one_instance_witness :
  exists a h err k' ctx',
    GetStateFast None Demo.keeper1 Demo.ctx1 = Some (h, err, k', ctx')
    /\ Value (MessagePool_Get None (statePool Demo.keeper1)).1 = Some a
    /\ forall b, b <> a -> objs (statePool k') !! b = objs (statePool Demo.keeper1) !! b.
Proof.
  apply (proj1 (Fast_reads_touch_one_instance (E := Demo.externals)
                  None Demo.keeper1 Demo.ctx1
                  ltac:(constructor; [exists 0%nat; split; [reflexivity | simpl; lia]
                                     | constructor])
                  ltac:(constructor))).
Defined.



Lemma GetStateFast_keeps_unset_decimals_witness :
  exists a v v' k' ctx',
    GetStateFast (Some 0%nat) Demo.keeper1 Demo.ctx_window_only
    = Some ((MessagePool_Get (Some 0%nat) (statePool Demo.keeper1)).1, None, k', ctx')
    /\ Value (MessagePool_Get (Some 0%nat) (statePool Demo.keeper1)).1 = Some a
    /\ objs (MessagePool_Get (Some 0%nat) (statePool Demo.keeper1)).2 !! a = Some v
    /\ objs (statePool k') !! a = Some v'
    /\ (~ has_BaseGasPrice
          (State_scan (KVStore Demo.ctx_window_only (storeKey Demo.keeper1) !! KeyState)).1 ->
        BaseGasPrice v' = BaseGasPrice v)
    /\ (~ has_LearningRate
          (State_scan (KVStore Demo.ctx_window_only (storeKey Demo.keeper1) !! KeyState)).1 ->
        LearningRate v' = LearningRate v).
Proof.
  apply (GetStateFast_keeps_unset_decimals (E := Demo.externals)).
  - constructor; [exists 0%nat; split; [reflexivity | simpl; lia] | constructor].
  - vm_compute. reflexivity.
Defined.

Lemma NewKeeper_first_fast_reads_witness :
  exists k' ctx',
    GetParamsFast (Some 0%nat) Demo.keeper0 Demo.ctx0
    = Some (mkPooledMessage (Some 0%nat) (Some 1%positive), None, k', ctx')
    /\ objs (paramsPool k') !! 0%nat = Some Params_factory
    /\ GetParams Demo.keeper0 Demo.ctx0 = (Params_zero_value, None).
Proof.
  apply (proj1 (NewKeeper_first_fast_reads (E := Demo.externals)
                  tt "feemarket" tt None
                  "cosmos10d07y265gmmuvt4z0w9aw880jnsr700j6zn9kn"
                  Demo.keeper0 (Some 0%nat) Demo.ctx0 eq_refl)).
  vm_compute. reflexivity.
Defined.

Lemma double_Release_aliases_witness :
  exists p1 p2,
    Release (mkPooledMessage (Some 0%nat) (Some 2%positive)) Demo.dirty_pool = Some p1
    /\ Release (mkPooledMessage (Some 0%nat) (Some 2%positive)) p1 = Some p2
    /\ (MessagePool_Get (Some 0%nat) p2).1 = mkPooledMessage (Some 0%nat) (Some 2%positive)
    /\ (MessagePool_Get (Some 0%nat) (MessagePool_Get (Some 0%nat) p2).2).1
       = mkPooledMessage (Some 0%nat) (Some 2%positive)
    /\ free (MessagePool_Get (Some 0%nat) (MessagePool_Get (Some 0%nat) p2).2).2
       = free Demo.dirty_pool.
Proof.
  apply (double_Release_aliases Demo.dirty_pool (mkPooledMessage (Some 0%nat) (Some 2%positive))).
  simpl. eauto.
Defined.

Lemma keeper_run_safe_witness :
  exists w,
    keeper_run (mkWorld Demo.keeper0 Demo.ctx_bad [] []) Demo.ops1 = Some w
    /\ GetAuthority (keeper w) = "cosmos10d07y265gmmuvt4z0w9aw880jnsr700j6zn9kn"
    /\ NoDup (Value <$> stateHandles w)
    /\ NoDup (Value <$> paramsHandles w)
    /\ (forall h, h ∈ stateHandles w ->
          exists a, Value h = Some a
                    /\ is_Some (objs (statePool (keeper w)) !! a)
                    /\ Some a ∉ free (statePool (keeper w)))
    /\ (forall h, h ∈ paramsHandles w ->
          exists a, Value h = Some a
                    /\ is_Some (objs (paramsPool (keeper w)) !! a)
                    /\ Some a ∉ free (paramsPool (keeper w))).
Proof.
  apply (keeper_run_safe (E := Demo.externals) tt "feemarket" tt None
           "cosmos10d07y265gmmuvt4z0w9aw880jnsr700j6zn9kn"
           Demo.keeper0 Demo.ctx_bad Demo.ops1 eq_refl).
Defined.
